(** * GeminiChatBot: a shallow embedding of the chat-thread store

  The program is a Streamlit script ([GeminiChatBot.py]).  Every user
  interaction re-executes the script from the top against the
  session state ([st.session_state]); a call of [st.rerun()] ends the
  current pass.  The embedding follows that shape:

  - [PyStr] and [PyDict] model the Python builtins the script relies on
    ([str.strip], [str.split], [str.replace], slicing, f-strings;
    insertion-ordered [dict]);
  - [GeminiChatBot] holds the script itself: the session state, the
    helpers ([delete_chat], [generate_title_from_summary],
    [handle_chat_submission], ...) and one pass of the script
    ([script_run]);
  - [Props] gathers the vocabulary of the properties (the invariant of
    the store, the count of title generations, the sanitisation as the
    specification words it);
  - [DictFacts] and [StrFacts] hold the facts about the builtins;
  - [ThreadStore] (deleting and creating chats), [Submission] (one call of
    the handler), [Session] (what every pass preserves) and [Titles]
    (title generation, sanitisation and fallback) hold the properties;
  - [View] models what a pass draws, [MoreProps] adds vocabulary, and
    [StoreOps], [Histories], [Calls], [TitleFacts] and [Sidebar] hold
    further properties of the same code. *)

From Stdlib Require Import String Ascii List ZArith Lia Bool Arith Permutation.
From Stdlib Require Import DecimalString DecimalZ.
Import ListNotations.
Local Open Scope list_scope.
Local Open Scope string_scope.

(* ===================================================================== *)
(** * Python strings *)
(* ===================================================================== *)

(** A Python [str] is modelled by a [string] whose characters are the code
  points below 256, so that indexing and slicing count characters exactly
  as Python does on such text. *)
Module PyStr.

(** [str.isspace] on one character, restricted to code points below 256:
    TAB..CR, FS..US, SPACE, NEL and NBSP. *)
Definition is_space (c : ascii) : bool :=
  let n := nat_of_ascii c in
  (Nat.leb 9 n && Nat.leb n 13) || (Nat.leb 28 n && Nat.leb n 32)
  || Nat.eqb n 133 || Nat.eqb n 160.

(** Truth value of a string: [if s:] holds for the non-empty ones. *)
Definition truthy (s : string) : bool :=
  match s with
  | EmptyString => false
  | String _ _ => true
  end.

(** [s.lstrip()] *)
Fixpoint lstrip (s : string) : string :=
  match s with
  | EmptyString => EmptyString
  | String c r => if is_space c then lstrip r else s
  end.

(** [s.rstrip()]: the recursive call answers the empty string exactly
    when the rest of the text is blank. *)
Fixpoint rstrip (s : string) : string :=
  match s with
  | EmptyString => EmptyString
  | String c r =>
      match rstrip r with
      | EmptyString => if is_space c then EmptyString else String c EmptyString
      | r' => String c r'
      end
  end.

(** [s.strip()] *)
Definition strip (s : string) : string := lstrip (rstrip s).

(** [s.split(sep)] for a one-character separator: empty fields are kept
    and the answer always has at least one element. *)
Fixpoint split_sep (sep : ascii) (s : string) : list string :=
  match s with
  | EmptyString => [EmptyString]
  | String c r =>
      if Ascii.eqb c sep then EmptyString :: split_sep sep r
      else match split_sep sep r with
           | w :: ws => String c w :: ws
           | [] => [String c EmptyString]
           end
  end.

(** [s.split()]: the maximal runs of non-whitespace characters. *)
Fixpoint split (s : string) : list string :=
  match s with
  | EmptyString => []
  | String c r =>
      if is_space c then split r
      else match r with
           | EmptyString => [String c EmptyString]
           | String c' _ =>
               if is_space c' then String c EmptyString :: split r
               else match split r with
                    | w :: ws => String c w :: ws
                    | [] => [String c EmptyString]
                    end
           end
  end.

(** [s.replace(old, new)] for a one-character [old]. *)
Fixpoint replace (old : ascii) (new : string) (s : string) : string :=
  match s with
  | EmptyString => EmptyString
  | String c r =>
      if Ascii.eqb c old then new ++ replace old new r
      else String c (replace old new r)
  end.

(** [s[:n]] for a non-negative [n]. *)
Fixpoint slice_to (n : nat) (s : string) : string :=
  match n, s with
  | S n', String c r => String c (slice_to n' r)
  | _, _ => EmptyString
  end.

(** [sep.join(words)] *)
Definition join (sep : string) (words : list string) : string :=
  String.concat sep words.

(** [str(n)] for a Python [int]: decimal digits, with a leading minus sign
    for the negative numbers. *)
Definition of_int (n : Z) : string := NilZero.string_of_int (Z.to_int n).

(** Occurrence of a character in a string. *)
Fixpoint occurs (c : ascii) (s : string) : bool :=
  match s with
  | EmptyString => false
  | String a r => Ascii.eqb a c || occurs c r
  end.

(** [sub in s] *)
Definition contains (s sub : string) : Prop :=
  exists before after, s = before ++ sub ++ after.

(** [s1 > s2], the order [sorted(..., reverse=True)] sorts by. *)
Definition gtb (s1 s2 : string) : bool :=
  match String.compare s1 s2 with
  | Gt => true
  | _ => false
  end.

(** The line feed and the double quote characters. *)
Definition LF : ascii := ascii_of_nat 10.
Definition DQUOTE : ascii := ascii_of_nat 34.

End PyStr.

(* ===================================================================== *)
(** * Python dictionaries *)
(* ===================================================================== *)

(** A [dict] with [str] keys keeps its entries in insertion order, which
  the script observes through [list(d.keys())[0]]; it is an association
  list in that order. *)
Module PyDict.

Definition dict (V : Type) : Type := list (string * V).

Section Operations.
Context {V : Type}.

(** [d.keys()] *)
Definition keys (d : dict V) : list string := map fst d.

(** [k in d] *)
Definition mem (k : string) (d : dict V) : bool :=
  existsb (String.eqb k) (keys d).

(** [d.get(k)] *)
Fixpoint get (d : dict V) (k : string) : option V :=
  match d with
  | [] => None
  | (k', v) :: r => if String.eqb k' k then Some v else get r k
  end.

(** [d.get(k, default)] *)
Definition get_default (d : dict V) (k : string) (default : V) : V :=
  match get d k with
  | Some v => v
  | None => default
  end.

(** [d[k] = v]: an existing key keeps its place, a new one goes last. *)
Fixpoint set (k : string) (v : V) (d : dict V) : dict V :=
  match d with
  | [] => [(k, v)]
  | (k', v') :: r =>
      if String.eqb k' k then (k, v) :: r else (k', v') :: set k v r
  end.

(** [del d[k]] (only ever executed under [k in d]). *)
Definition del (k : string) (d : dict V) : dict V :=
  filter (fun kv => negb (String.eqb (fst kv) k)) d.

(** Truth value of a dictionary: [if d:] holds for the non-empty ones. *)
Definition non_empty (d : dict V) : bool :=
  match d with
  | [] => false
  | _ :: _ => true
  end.

End Operations.

(** [sorted(ks, reverse=True)]: a stable insertion sort into descending
    order. *)
Fixpoint insert_desc (k : string) (ks : list string) : list string :=
  match ks with
  | [] => [k]
  | k' :: r => if PyStr.gtb k' k then k' :: insert_desc k r else k :: ks
  end.

Definition sorted_reverse (ks : list string) : list string :=
  fold_right insert_desc [] ks.

End PyDict.

(* ===================================================================== *)
(** * The script *)
(* ===================================================================== *)

Module GeminiChatBot.
Import PyDict.

(** ** Data *)

(** The two values the [role] entry of a message takes. *)
Inductive role_t : Type := user | model.

(** A message, a dictionary with the entries [role] and [content]. *)
Record message : Type := Message { role : role_t; content : string }.

(** An entry of the history as it is sent to the API: the role and the
    list [parts] of texts. *)
Record api_message : Type :=
  ApiMessage { api_role : role_t; parts : list string }.

(** [st.session_state] once its five keys are present. *)
Record session_state : Type := SessionState {
  chats : dict (list message);
  chat_titles : dict string;
  active_chat : string;
  chat_counter : Z;
  user_input : string
}.

Definition with_chats (s : session_state) (c : dict (list message)) :=
  SessionState c (chat_titles s) (active_chat s) (chat_counter s) (user_input s).
Definition with_chat_titles (s : session_state) (t : dict string) :=
  SessionState (chats s) t (active_chat s) (chat_counter s) (user_input s).
Definition with_active_chat (s : session_state) (a : string) :=
  SessionState (chats s) (chat_titles s) a (chat_counter s) (user_input s).
Definition with_chat_counter (s : session_state) (n : Z) :=
  SessionState (chats s) (chat_titles s) (active_chat s) n (user_input s).
Definition with_user_input (s : session_state) (u : string) :=
  SessionState (chats s) (chat_titles s) (active_chat s) (chat_counter s) u.

(** What a call of the hosted API does: it returns a text or raises an
    exception [e], kept as [str(e)]. *)
Inductive outcome : Type :=
| Returns (text : string)
| Raises (e : string).

(** The API as one pass of the script meets it: the answer of the chat
    model to a history, and the answer of the title model to a request
    (any exception raised while building the model, sending the request or
    reading [response.text] counts as [Raises]). *)
Record backend : Type := Backend {
  generate_content : list api_message -> outcome;
  title_generate_content : string -> outcome
}.

(** What a pass does besides updating the session state. *)
Inductive effect : Type :=
| CallModel (api_history : list api_message)
| CallTitle (text_content original_prompt : string)
| StError (msg : string)
| StWarning (msg : string).

(** Whether a helper ended in [st.rerun()], which stops the pass. *)
Inductive control : Type := Continue | Rerun.

(** The widget the user acted on before this pass, if any. *)
Inductive widget_event : Type :=
| NoInteraction
| NewChatButton
| SelectButton (chat_id : string)
| DeleteButton (chat_id : string)
| ChatInput (text : string).

(** ** Session state initialisation *)

Definition greeting : message :=
  Message model "Hello! How can I assist you today?".

Definition init_state : session_state :=
  SessionState [("Chat 1", [greeting])] [("Chat 1", "Chat 1")] "Chat 1" 1 EmptyString.

(** The five keys are only ever created together, by this block: a fresh
    session has none of them ([None]) and gets the defaults, a running one
    has all of them and is left alone. *)
Definition initialize (st : option session_state) : session_state :=
  match st with
  | None => init_state
  | Some s => s
  end.

(** ** Utility functions *)

Definition get_active_chat_history (s : session_state) : list message :=
  get_default (chats s) (active_chat s) [].

Definition save_chat_history (chat_id : string) (messages : list message)
    (s : session_state) : session_state :=
  with_chats s (set chat_id messages (chats s)).

(** The identifier minted from the counter value [n]: the text [Chat n]. *)
Definition chat_name (n : Z) : string := "Chat " ++ PyStr.of_int n.

Definition delete_chat (chat_id : string) (s : session_state)
    : session_state * control :=
  if mem chat_id (chats s) then
    let s1 := with_chats s (del chat_id (chats s)) in
    let s2 := if mem chat_id (chat_titles s1)
              then with_chat_titles s1 (del chat_id (chat_titles s1))
              else s1 in
    let s3 :=
      if String.eqb chat_id (active_chat s2) then
        if non_empty (chats s2) then
          with_active_chat s2 (hd EmptyString (keys (chats s2)))
        else
          let s4 := with_chat_counter s2 1 in
          let new_chat_id := "Chat 1" in
          let s5 := with_chats s4 (set new_chat_id [greeting] (chats s4)) in
          let s6 := with_chat_titles s5
                      (set new_chat_id new_chat_id (chat_titles s5)) in
          with_active_chat s6 new_chat_id
      else s2 in
    (s3, Rerun)
  else (s, Continue).

(** ** Title generation *)

(** Lines 85-87: what is kept of the text the title model returned. *)
Definition sanitize_title (response_text : string) : string :=
  let title := hd EmptyString (PyStr.split_sep PyStr.LF (PyStr.strip response_text)) in
  let title :=
    PyStr.strip
      (PyStr.replace PyStr.DQUOTE EmptyString
         (PyStr.replace "*" EmptyString title)) in
  PyStr.slice_to 50 title.

(** Line 90: the title used when the title model could not be asked. *)
Definition fallback_title (original_prompt : string) : string :=
  if PyStr.truthy original_prompt
  then PyStr.join " " (firstn 5 (PyStr.split original_prompt)) ++ "..."
  else "New Chat".

(** The request sent to the title model. *)
Definition title_request (text_content original_prompt : string) : string :=
  let context_for_title :=
    "User: " ++ original_prompt
    ++ String PyStr.LF ("Assistant: " ++ text_content) in
  "Generate a very short title (3-5 words) for this conversation snippet:"
  ++ String PyStr.LF (String PyStr.LF context_for_title).

(** The function catches every exception of its [try] block itself, so it
    always returns a title. *)
Definition generate_title_from_summary (be : backend)
    (text_content original_prompt : string) : string * list effect :=
  match title_generate_content be (title_request text_content original_prompt) with
  | Returns text =>
      (sanitize_title text, [CallTitle text_content original_prompt])
  | Raises e =>
      (fallback_title original_prompt,
       [CallTitle text_content original_prompt;
        StWarning ("Could not generate title automatically: " ++ e)])
  end.

(** ** Chat management (sidebar) *)

(** The body of the [new_chat_button] branch, up to its [st.rerun()]. *)
Definition new_chat (s : session_state) : session_state :=
  let s1 := with_chat_counter s (chat_counter s + 1) in
  let new_id := chat_name (chat_counter s1) in
  let s2 := with_chats s1 (set new_id [greeting] (chats s1)) in
  let s3 := with_chat_titles s2 (set new_id new_id (chat_titles s2)) in
  with_active_chat s3 new_id.

(** [st.button(..., key=...)] answers [True] in the pass that follows a
    click on that very button. *)
Definition new_chat_clicked (ev : widget_event) : bool :=
  match ev with
  | NewChatButton => true
  | _ => false
  end.

Definition select_clicked (ev : widget_event) (chat_id : string) : bool :=
  match ev with
  | SelectButton k => String.eqb k chat_id
  | _ => false
  end.

Definition delete_clicked (ev : widget_event) (chat_id : string) : bool :=
  match ev with
  | DeleteButton k => String.eqb k chat_id
  | _ => false
  end.

(** The loop over [sorted_chat_ids]: one select button and one delete button
    per chat. *)
Fixpoint sidebar_loop (ev : widget_event) (sorted_chat_ids : list string)
    (s : session_state) : session_state * control :=
  match sorted_chat_ids with
  | [] => (s, Continue)
  | chat_id :: rest =>
      if select_clicked ev chat_id then (with_active_chat s chat_id, Rerun)
      else if delete_clicked ev chat_id then
        match delete_chat chat_id s with
        | (s', Rerun) => (s', Rerun)
        | (s', Continue) => sidebar_loop ev rest s'
        end
      else sidebar_loop ev rest s
  end.

(** ** Processing the input *)

(** [history.append(m)] on the list [get_active_chat_history] answered.
    That list is the very object stored under the active key whenever the
    key is present, so the store sees the append at once; otherwise it is
    a list of the handler's own.  The pair is the session state and the
    contents of the list. *)
Definition history_append (m : message) (sh : session_state * list message)
    : session_state * list message :=
  let '(s, h) := sh in
  let h' := (h ++ [m])%list in
  (if mem (active_chat s) (chats s)
   then with_chats s (set (active_chat s) h' (chats s))
   else s,
   h').

Definition api_history_of (history : list message) : list api_message :=
  map (fun msg => ApiMessage (role msg) [content msg]) history.

(** [history[-2]] of a list with at least two elements. *)
Definition last_but_one (history : list message) : message :=
  nth (length history - 2) history (Message model EmptyString).

Definition handle_chat_submission (be : backend) (prompt_text : string)
    (s : session_state) : session_state * list effect :=
  if negb (PyStr.truthy prompt_text) then (s, [])
  else
    let active_chat_history := get_active_chat_history s in
    let '(s1, h1) :=
      history_append (Message user prompt_text) (s, active_chat_history) in
    let api_history := api_history_of h1 in
    let '(s2, h2, tr) :=
      match generate_content be api_history with
      | Returns reply_text =>
          let '(s', h') := history_append (Message model reply_text) (s1, h1) in
          let current_chat_id := active_chat s' in
          let is_default_title :=
            String.eqb (get_default (chat_titles s') current_chat_id EmptyString)
                       current_chat_id in
          if is_default_title && Nat.leb 2 (length h') then
            let user_prompt_for_title := content (last_but_one h') in
            let '(new_title, tr') :=
              generate_title_from_summary be reply_text user_prompt_for_title in
            (with_chat_titles s' (set current_chat_id new_title (chat_titles s')),
             h', CallModel api_history :: tr')
          else (s', h', [CallModel api_history])
      | Raises e =>
          let error_message := "An error occurred: " ++ e in
          let '(s', h') :=
            history_append (Message model ("Error: " ++ error_message)) (s1, h1) in
          (s', h', [CallModel api_history; StError error_message])
      end in
    let s3 := save_chat_history (active_chat s2) h2 s2 in
    (with_user_input s3 EmptyString, tr).

(** ** One pass of the script *)

(** [st.chat_input] answers the submitted text in the pass that follows a
    submission and [None] otherwise; both [None] and the empty text are
    false. *)
Definition chat_input (ev : widget_event) : string :=
  match ev with
  | ChatInput text => text
  | _ => EmptyString
  end.

(** One execution of the script on an initialised session, from the sidebar
    down to the first [st.rerun()] or to the end of the file. *)
Definition script_run (be : backend) (ev : widget_event) (s : session_state)
    : session_state * list effect :=
  if new_chat_clicked ev then (new_chat s, [])
  else
    let sorted_chat_ids := sorted_reverse (keys (chats s)) in
    match sidebar_loop ev sorted_chat_ids s with
    | (s1, Rerun) => (s1, [])
    | (s1, Continue) =>
        let prompt_from_input := chat_input ev in
        let s2 := if PyStr.truthy prompt_from_input
                  then with_user_input s1 prompt_from_input
                  else s1 in
        if PyStr.truthy (user_input s2)
        then handle_chat_submission be (user_input s2) s2
        else (s2, [])
    end.

(** ** Sessions *)

(** A session is a sequence of passes, each with the widget acted on and
    the answers the API gives during that pass. *)
Definition pass : Type := backend * widget_event.

Fixpoint run (passes : list pass) (s : session_state)
    : session_state * list effect :=
  match passes with
  | [] => (s, [])
  | (be, ev) :: rest =>
      let '(s1, tr1) := script_run be ev s in
      let '(s2, tr2) := run rest s1 in
      (s2, (tr1 ++ tr2)%list)
  end.

Definition final (passes : list pass) : session_state :=
  fst (run passes (initialize None)).

Definition reachable (s : session_state) : Prop :=
  exists passes, s = final passes.

End GeminiChatBot.

(* ===================================================================== *)
(** * The vocabulary of the properties *)
(* ===================================================================== *)

Module Props.
Import PyDict GeminiChatBot.

(** The operations of the thread store that create and destroy threads. *)
Inductive store_op : Type :=
| Create
| Delete (chat_id : string).

Definition apply_op (s : session_state) (op : store_op) : session_state :=
  match op with
  | Create => new_chat s
  | Delete chat_id => fst (delete_chat chat_id s)
  end.

Definition apply_ops (ops : list store_op) (s : session_state) : session_state :=
  fold_left apply_op ops s.

(** Both dictionaries list the same keys, in the same order. *)
Definition same_keys (s : session_state) : Prop :=
  keys (chats s) = keys (chat_titles s).

(** The session state a submission leaves: the history [h] stored under the
    active chat, the titles [titles], and the input buffer cleared. *)
Definition submitted (s : session_state) (h : list message)
    (titles : dict string) : session_state :=
  SessionState (set (active_chat s) h (chats s)) titles
               (active_chat s) (chat_counter s) EmptyString.

Definition error_text (e : string) : string := "An error occurred: " ++ e.

(** The backend of the fourth property of the specification: the chat
    model answers [Hi there]; the title model answers [Greetings]. *)
Definition friendly_backend : backend :=
  Backend (fun _ => Returns "Hi there") (fun _ => Returns "Greetings").

(** A backend whose chat model is out of quota. *)
Definition failing_backend : backend :=
  Backend (fun _ => Raises "quota exceeded") (fun _ => Returns "Greetings").

(** The prompt the bottom of the script finds in [user_input]. *)
Definition pending (ev : widget_event) (s : session_state) : string :=
  if PyStr.truthy (chat_input ev) then chat_input ev else user_input s.

(** What holds of [chats], [chat_titles], [active_chat] and [chat_counter]
    between two passes: both dictionaries list the same keys, once each; the
    active chat is one of them; every key was minted from a counter value
    between 1 and the current one. *)
Record store_ok (s : session_state) : Prop := StoreOk {
  ok_same_keys : keys (chats s) = keys (chat_titles s);
  ok_nodup : NoDup (keys (chats s));
  ok_active : In (active_chat s) (keys (chats s));
  ok_counter : (1 <= chat_counter s)%Z;
  ok_names : forall k, In k (keys (chats s)) ->
               exists n, (1 <= n <= chat_counter s)%Z /\ k = chat_name n
}.

(** Between two passes the input buffer is empty as well. *)
Definition well_formed (s : session_state) : Prop :=
  store_ok s /\ user_input s = EmptyString.

(** The number of calls of [generate_title_from_summary] in a trace. *)
Definition title_calls (tr : list effect) : nat :=
  length (filter (fun e => match e with CallTitle _ _ => true | _ => false end) tr).

(** The test [is_default_title] of the handler: the title stored for the
    active chat is the identifier of that chat. *)
Definition has_default_title (s : session_state) : bool :=
  String.eqb (get_default (chat_titles s) (active_chat s) EmptyString)
             (active_chat s).

(** The number of title generations made for the chat [t] during the
    passes: the handler only works on the chat that is active when the pass
    starts. *)
Fixpoint retitles_of (t : string) (passes : list pass) (s : session_state)
    : nat :=
  match passes with
  | [] => 0
  | (be, ev) :: rest =>
      let '(s1, tr) := script_run be ev s in
      (if String.eqb (active_chat s) t then title_calls tr else 0)
      + retitles_of t rest s1
  end.

(** A backend whose title model answers [Chat 1]. *)
Definition echoing_backend : backend :=
  Backend (fun _ => Returns "Hi there") (fun _ => Returns "Chat 1").

(** A backend whose title model cannot be reached. *)
Definition untitled_backend : backend :=
  Backend (fun _ => Returns "Hi there") (fun _ => Raises "unavailable").

(** A session state whose only chat is the seventh one. *)
Definition seventh_alone : session_state :=
  SessionState [("Chat 7", [greeting; Message user "hi"])]
               [("Chat 7", "Greetings")] "Chat 7" 7 EmptyString.

(** A session with one exchange in the first chat, then a second chat,
    then the first chat selected again. *)
Definition busy_session : list pass :=
  [(friendly_backend, ChatInput "Hello");
   (friendly_backend, NewChatButton);
   (friendly_backend, SelectButton "Chat 1")].

(** The pass is the click on the delete button of the sole remaining chat:
    the one that sets the counter back. *)
Definition deletes_sole_chat (ev : widget_event) (s : session_state) : bool :=
  match ev, keys (chats s) with
  | DeleteButton chat_id, [k] => String.eqb chat_id k
  | _, _ => false
  end.

(** No pass of the run deletes the sole remaining chat. *)
Fixpoint no_reset (passes : list pass) (s : session_state) : bool :=
  match passes with
  | [] => true
  | (be, ev) :: rest =>
      negb (deletes_sole_chat ev s)
      && no_reset rest (fst (script_run be ev s))
  end.

(** The identifiers minted during a run, in order: every pass that follows
    a click on the new-chat button mints the identifier of the chat it
    makes active. *)
Fixpoint minted (passes : list pass) (s : session_state) : list string :=
  match passes with
  | [] => []
  | (be, ev) :: rest =>
      let s1 := fst (script_run be ev s) in
      if new_chat_clicked ev
      then active_chat s1 :: minted rest s1
      else minted rest s1
  end.

(** A run without reset that mints two identifiers. *)
Definition two_more_chats : list pass :=
  [(friendly_backend, NewChatButton);
   (friendly_backend, DeleteButton "Chat 2");
   (failing_backend, ChatInput "Anyone?");
   (friendly_backend, NewChatButton);
   (friendly_backend, DeleteButton "Chat 3")].

(** A session that creates a second chat and deletes the first. *)
Definition two_then_one : list pass :=
  [(friendly_backend, NewChatButton);
   (friendly_backend, DeleteButton "Chat 1")].

(** ** Title sanitisation as the specification words it *)

(** The first line of a text: what precedes its first line feed. *)
Definition first_line (text : string) : string :=
  hd EmptyString (PyStr.split_sep PyStr.LF text).

(** Take only the first line, remove the asterisks and the double quotes,
    trim the surrounding whitespace, truncate to 50 characters. *)
Definition sanitize_spec (text : string) : string :=
  PyStr.slice_to 50
    (PyStr.strip
       (PyStr.replace PyStr.DQUOTE EmptyString
          (PyStr.replace "*" EmptyString (first_line text)))).

(** The answer of the title model in the seventh property of the
    specification: a title in asterisks and quotes, then a second line. *)
Definition weekend_text : string :=
  "**" ++ String PyStr.DQUOTE
            ("Weekend Trip Plans"
             ++ String PyStr.DQUOTE ("**" ++ String PyStr.LF "Extra line")).

(** An answer that starts with an empty line. *)
Definition late_title_text : string := String PyStr.LF "Title".

(** A text without any whitespace character. *)
Definition no_space (w : string) : Prop :=
  forall c, PyStr.occurs c w = true -> PyStr.is_space c = false.

End Props.

(* ===================================================================== *)
(** * What the script renders *)
(* ===================================================================== *)

(** The widgets drawn from the session state by a pass that no click
    cuts short: the rows of the sidebar (lines 105-120) and the messages of
    the active chat (lines 159-163). *)
Module View.
Import PyDict GeminiChatBot.

(** The [type] of a button. *)
Inductive button_type : Type := primary | secondary.

(** One row of the sidebar: the select button of a chat, with its label and
    its type (the delete button of the row has the same chat in its key). *)
Record sidebar_row : Type := SidebarRow {
  row_chat : string;
  row_label : string;
  row_type : button_type
}.

Definition sidebar_rows (s : session_state) : list sidebar_row :=
  let sorted_chat_ids := sorted_reverse (keys (chats s)) in
  map (fun chat_id =>
         let chat_title := get_default (chat_titles s) chat_id chat_id in
         SidebarRow chat_id chat_title
           (if negb (String.eqb (active_chat s) chat_id)
            then secondary else primary))
      sorted_chat_ids.

(** The name [st.chat_message] gets for a message. *)
Definition chat_message_name (msg : message) : string :=
  match role msg with
  | user => "user"
  | model => "assistant"
  end.

(** The messages drawn in the main container: name and text. *)
Definition displayed (s : session_state) : list (string * string) :=
  map (fun msg => (chat_message_name msg, content msg))
      (get_active_chat_history s).

End View.

(* ===================================================================== *)
(** * The vocabulary of the further properties *)
(* ===================================================================== *)

Module MoreProps.
Import PyDict GeminiChatBot View.

(** The two turns of one exchange: the prompt, and the reply of the model
    or the report of its failure. *)
Definition exchange (x : string * string) : list message :=
  [Message user (fst x); Message model (snd x)].

(** A history is the greeting followed by complete exchanges. *)
Definition history_ok (h : list message) : Prop :=
  exists exchanges : list (string * string),
    h = greeting :: flat_map exchange exchanges.

(** Every chat of the store has such a history. *)
Definition histories_ok (s : session_state) : Prop :=
  forall k h, get (chats s) k = Some h -> history_ok h.

(** The number of calls of the chat model in a trace. *)
Definition model_calls (tr : list effect) : nat :=
  length (filter (fun e => match e with CallModel _ => true | _ => false end) tr).

(** The rows of the sidebar whose button is drawn as primary. *)
Definition primary_rows (rows : list sidebar_row) : list sidebar_row :=
  filter (fun r => match row_type r with primary => true | secondary => false end)
         rows.

(** A session state with three chats, the second of them active. *)
Definition three_chats : session_state :=
  SessionState
    [("Chat 1", [greeting]); ("Chat 2", [greeting]); ("Chat 3", [greeting])]
    [("Chat 1", "Chat 1"); ("Chat 2", "Trip"); ("Chat 3", "Chat 3")]
    "Chat 2" 3 EmptyString.

End MoreProps.

(* ===================================================================== *)
(** * Facts about dictionaries *)
(* ===================================================================== *)

Module DictFacts.
Import PyDict.

Section Facts.
Context {V : Type}.
Implicit Types (d : dict V) (k : string) (v : V).

Lemma mem_true_iff k d : mem k d = true <-> In k (keys d).
Proof.
  unfold mem. rewrite existsb_exists. split.
  - intros [x [Hin Heq]]. apply String.eqb_eq in Heq. now subst.
  - intros Hin. exists k. split; [assumption | apply String.eqb_refl].
Qed.

Lemma mem_false_iff k d : mem k d = false <-> ~ In k (keys d).
Proof.
  rewrite <- mem_true_iff. destruct (mem k d); split; congruence.
Qed.

Lemma keys_set_present k v d : In k (keys d) -> keys (set k v d) = keys d.
Proof.
  induction d as [|[k' v'] r IH]; simpl; [tauto|].
  intros Hin. destruct (String.eqb_spec k' k) as [->|Hne]; simpl.
  - reflexivity.
  - f_equal. apply IH. destruct Hin; [contradiction | assumption].
Qed.

Lemma keys_set_absent k v d :
  ~ In k (keys d) -> keys (set k v d) = (keys d ++ [k])%list.
Proof.
  induction d as [|[k' v'] r IH]; simpl; [reflexivity|].
  intros Hnin. destruct (String.eqb_spec k' k) as [->|Hne]; simpl.
  - exfalso. apply Hnin. now left.
  - f_equal. apply IH. intros Hin. apply Hnin. now right.
Qed.

Lemma in_keys_set k v d : In k (keys (set k v d)).
Proof.
  induction d as [|[k' v'] r IH]; simpl; [now left|].
  destruct (String.eqb_spec k' k); simpl; tauto.
Qed.

Lemma get_set_same k v d : get (set k v d) k = Some v.
Proof.
  induction d as [|[k' v'] r IH]; simpl.
  - now rewrite String.eqb_refl.
  - destruct (String.eqb_spec k' k) as [->|Hne]; simpl.
    + now rewrite String.eqb_refl.
    + destruct (String.eqb_spec k' k); [contradiction | assumption].
Qed.

Lemma get_set_other k k' v d : k' <> k -> get (set k v d) k' = get d k'.
Proof.
  intros Hne. induction d as [|[k0 v0] r IH]; simpl.
  - destruct (String.eqb_spec k k'); [congruence | reflexivity].
  - destruct (String.eqb_spec k0 k) as [->|Hne0]; simpl.
    + destruct (String.eqb_spec k k'); [congruence | reflexivity].
    + destruct (String.eqb_spec k0 k'); [reflexivity | assumption].
Qed.

(** Writing twice under one key leaves the second value only. *)
Lemma set_set k v1 v2 d : set k v2 (set k v1 d) = set k v2 d.
Proof.
  induction d as [|[k' v'] r IH]; simpl.
  - now rewrite String.eqb_refl.
  - destruct (String.eqb_spec k' k) as [->|Hne]; simpl.
    + now rewrite String.eqb_refl.
    + destruct (String.eqb_spec k' k); [contradiction | now rewrite IH].
Qed.

Lemma keys_del k d :
  keys (del k d) = filter (fun x => negb (String.eqb x k)) (keys d).
Proof.
  unfold del, keys. induction d as [|[k' v'] r IH]; simpl; [reflexivity|].
  destruct (String.eqb k' k); simpl; now rewrite IH.
Qed.

Lemma in_keys_del k k' d :
  In k' (keys (del k d)) <-> In k' (keys d) /\ k' <> k.
Proof.
  rewrite keys_del, filter_In, negb_true_iff, String.eqb_neq. tauto.
Qed.

Lemma get_del_other k k' d : k' <> k -> get (del k d) k' = get d k'.
Proof.
  intros Hne. unfold del. induction d as [|[k0 v0] r IH]; simpl; [reflexivity|].
  destruct (String.eqb_spec k0 k) as [->|Hne0]; simpl.
  - destruct (String.eqb_spec k k'); [congruence | assumption].
  - destruct (String.eqb_spec k0 k'); [reflexivity | assumption].
Qed.

Lemma get_some_in_keys k v d : get d k = Some v -> In k (keys d).
Proof.
  induction d as [|[k' v'] r IH]; simpl; [discriminate|].
  destruct (String.eqb_spec k' k); [now left | right; now apply IH].
Qed.

Lemma non_empty_keys d : non_empty d = true -> In (hd EmptyString (keys d)) (keys d).
Proof. destruct d as [|[k v] r]; simpl; [discriminate | now left]. Qed.

Lemma non_empty_false d : non_empty d = false -> d = [].
Proof. destruct d; simpl; [reflexivity | discriminate]. Qed.

Lemma keys_nil d : keys d = [] -> d = [].
Proof. destruct d; simpl; [reflexivity | discriminate]. Qed.

Lemma NoDup_keys_del k d : NoDup (keys d) -> NoDup (keys (del k d)).
Proof. rewrite keys_del. apply NoDup_filter. Qed.

Lemma NoDup_keys_set k v d : NoDup (keys d) -> NoDup (keys (set k v d)).
Proof.
  intros Hnd. destruct (in_dec string_dec k (keys d)) as [Hin|Hnin].
  - now rewrite keys_set_present.
  - rewrite keys_set_absent by assumption.
    apply NoDup_app; [assumption | repeat constructor; simpl; tauto |].
    intros x Hx [<-|[]]. contradiction.
Qed.

End Facts.

(** Two dictionaries with the same keys answer [in] alike. *)
Lemma mem_same_keys {V W : Type} (d : dict V) (d' : dict W) k :
  keys d = keys d' -> mem k d = mem k d'.
Proof. unfold mem. now intros ->. Qed.

Lemma in_insert_desc k x ks : In x (insert_desc k ks) <-> x = k \/ In x ks.
Proof.
  induction ks as [|k' r IH]; simpl.
  - intuition congruence.
  - destruct (PyStr.gtb k' k); simpl; rewrite ?IH; intuition congruence.
Qed.

(** Sorting the chat identifiers neither adds nor drops one. *)
Lemma in_sorted_reverse x ks : In x (sorted_reverse ks) <-> In x ks.
Proof.
  unfold sorted_reverse. induction ks as [|k r IH]; simpl; [tauto|].
  rewrite in_insert_desc, IH. intuition congruence.
Qed.

End DictFacts.

(* ===================================================================== *)
(** * Facts about strings *)
(* ===================================================================== *)

Module StrFacts.
Import PyStr GeminiChatBot Props.

Lemma append_empty_r (s : string) : s ++ EmptyString = s.
Proof. induction s as [|c r IH]; simpl; [reflexivity | now rewrite IH]. Qed.

Lemma append_inv_head (p s1 s2 : string) : p ++ s1 = p ++ s2 -> s1 = s2.
Proof.
  induction p as [|c r IH]; simpl; [tauto|].
  intros H. injection H as H. now apply IH.
Qed.

(** ** The builtins on a few texts *)

Example strip_example : strip "  a b  " = "a b".
Proof. reflexivity. Qed.

Example strip_line_feeds :
  strip (String LF (" Title " ++ String LF EmptyString)) = "Title".
Proof. reflexivity. Qed.

Example split_example : split "  one two   three " = ["one"; "two"; "three"].
Proof. reflexivity. Qed.

Example split_blank : split "   " = [].
Proof. reflexivity. Qed.

Example split_sep_example :
  split_sep LF ("a" ++ String LF (String LF "b")) = ["a"; EmptyString; "b"].
Proof. reflexivity. Qed.

Example split_sep_empty : split_sep LF EmptyString = [EmptyString].
Proof. reflexivity. Qed.

Example replace_example : replace "*" EmptyString "**a*b" = "ab".
Proof. reflexivity. Qed.

Example slice_to_example : slice_to 3 "abcdef" = "abc" /\ slice_to 9 "ab" = "ab".
Proof. split; reflexivity. Qed.

Example join_example : join " " ["a"; "b"; "c"] = "a b c".
Proof. reflexivity. Qed.

Example of_int_example :
  of_int 0 = "0" /\ of_int 12 = "12" /\ of_int (-7) = "-7".
Proof. repeat split; reflexivity. Qed.

Example sorted_reverse_example :
  PyDict.sorted_reverse ["Chat 1"; "Chat 10"; "Chat 2"]
  = ["Chat 2"; "Chat 10"; "Chat 1"].
Proof. reflexivity. Qed.

(** ** Slicing, stripping and replacing *)

Lemma length_slice_to n s : String.length (slice_to n s) <= n.
Proof.
  revert s. induction n as [|n IH]; intros [|c r]; simpl; try lia.
  specialize (IH r). lia.
Qed.

Lemma occurs_slice_to c n s : occurs c s = false -> occurs c (slice_to n s) = false.
Proof.
  revert s. induction n as [|n IH]; intros [|a r]; simpl; try reflexivity.
  intros H. apply orb_false_iff in H as [H1 H2].
  rewrite H1. simpl. now apply IH.
Qed.

Lemma occurs_lstrip c s : occurs c s = false -> occurs c (lstrip s) = false.
Proof.
  induction s as [|a r IH]; cbn [lstrip occurs]; [reflexivity|].
  intros H. destruct (is_space a); [|exact H].
  apply orb_false_iff in H as [_ H]. now apply IH.
Qed.

Lemma occurs_rstrip c s : occurs c s = false -> occurs c (rstrip s) = false.
Proof.
  induction s as [|a r IH]; cbn [rstrip occurs]; [reflexivity|].
  intros H. apply orb_false_iff in H as [H1 H2]. specialize (IH H2).
  destruct (rstrip r) as [|b r'].
  - destruct (is_space a); cbn [occurs]; [reflexivity | now rewrite H1].
  - cbn [occurs] in *. now rewrite H1, IH.
Qed.

Lemma occurs_strip c s : occurs c s = false -> occurs c (strip s) = false.
Proof. intros H. now apply occurs_lstrip, occurs_rstrip. Qed.

Lemma occurs_replace_same c s : occurs c (replace c EmptyString s) = false.
Proof.
  induction s as [|a r IH]; cbn [replace occurs]; [reflexivity|].
  destruct (Ascii.eqb a c) eqn:Hac; cbn [append occurs]; [assumption|].
  now rewrite Hac, IH.
Qed.

Lemma occurs_replace_other c d s :
  occurs c s = false -> occurs c (replace d EmptyString s) = false.
Proof.
  induction s as [|a r IH]; cbn [replace occurs]; [reflexivity|].
  intros H. apply orb_false_iff in H as [H1 H2].
  destruct (Ascii.eqb a d); cbn [append occurs]; [now apply IH|].
  now rewrite H1, IH.
Qed.

Lemma split_sep_cons sep s : exists w ws, split_sep sep s = w :: ws.
Proof.
  induction s as [|c r [w [ws IH]]]; cbn [split_sep]; [now eexists; eexists|].
  destruct (Ascii.eqb c sep); [now eexists; eexists|].
  rewrite IH. now eexists; eexists.
Qed.

Lemma first_line_cons c r :
  first_line (String c r) =
    if Ascii.eqb c LF then EmptyString else String c (first_line r).
Proof.
  unfold first_line. cbn [split_sep].
  destruct (Ascii.eqb c LF); [reflexivity|].
  destruct (split_sep_cons LF r) as [w [ws ->]]. reflexivity.
Qed.

Lemma occurs_first_line s : occurs LF (first_line s) = false.
Proof.
  induction s as [|c r IH]; [reflexivity|].
  rewrite first_line_cons. destruct (Ascii.eqb c LF) eqn:Hc; [reflexivity|].
  cbn [occurs]. now rewrite Hc, IH.
Qed.

Lemma is_space_LF : is_space LF = true.
Proof. reflexivity. Qed.

Lemma rstrip_first_line s :
  rstrip (first_line (rstrip s)) = rstrip (first_line s).
Proof.
  induction s as [|c r IH]; [reflexivity|].
  rewrite (first_line_cons c r). cbn [rstrip].
  destruct (Ascii.eqb_spec c LF) as [->|Hc].
  - rewrite is_space_LF. destruct (rstrip r); [reflexivity|].
    now rewrite first_line_cons, Ascii.eqb_refl.
  - cbn [rstrip]. rewrite <- IH. apply Ascii.eqb_neq in Hc.
    destruct (rstrip r) as [|a r'].
    + cbn [rstrip first_line]. destruct (is_space c) eqn:Hsp; [reflexivity|].
      rewrite first_line_cons, Hc. cbn [rstrip]. 
      change (first_line EmptyString) with EmptyString. cbn [rstrip].
      now rewrite Hsp.
    + rewrite (first_line_cons c), Hc. reflexivity.
Qed.

Lemma replace_cons_other a c r :
  Ascii.eqb c a = false ->
  replace a EmptyString (String c r) = String c (replace a EmptyString r).
Proof. intros H. cbn [replace]. now rewrite H. Qed.

Lemma replace_cons_same a r :
  replace a EmptyString (String a r) = replace a EmptyString r.
Proof. cbn [replace]. now rewrite Ascii.eqb_refl. Qed.

(** Removing a character that is not whitespace does not change what
    [rstrip] sees of the trailing whitespace. *)
Lemma rstrip_replace a s :
  is_space a = false ->
  rstrip (replace a EmptyString (rstrip s)) = rstrip (replace a EmptyString s).
Proof.
  intros Ha. induction s as [|c r IH]; [reflexivity|].
  cbn [rstrip]. destruct (rstrip r) as [|b r'] eqn:Hr.
  - cbn [replace rstrip] in IH.
    destruct (Ascii.eqb_spec c a) as [->|Hca].
    + rewrite Ha. rewrite !replace_cons_same. exact IH.
    + apply Ascii.eqb_neq in Hca.
      rewrite (replace_cons_other a c r Hca). cbn [rstrip]. rewrite <- IH.
      destruct (is_space c) eqn:Hsp; [reflexivity|].
      rewrite (replace_cons_other a c _ Hca). cbn [replace rstrip].
      now rewrite Hsp.
  - destruct (Ascii.eqb_spec c a) as [->|Hca].
    + rewrite !replace_cons_same. exact IH.
    + apply Ascii.eqb_neq in Hca.
      rewrite !(replace_cons_other a c _ Hca). cbn [rstrip]. now rewrite IH.
Qed.

Lemma length_lstrip s : String.length (lstrip s) <= String.length s.
Proof.
  induction s as [|c r IH]; cbn [lstrip String.length]; [lia|].
  destruct (is_space c); cbn [String.length]; lia.
Qed.

Lemma lstrip_fixed_head c r :
  lstrip (String c r) = String c r -> is_space c = false.
Proof.
  cbn [lstrip]. destruct (is_space c); [|reflexivity].
  intros H. pose proof (length_lstrip r) as Hl. rewrite H in Hl.
  cbn [String.length] in Hl. lia.
Qed.

Lemma lstrip_rstrip_fixed s : lstrip s = s -> lstrip (rstrip s) = rstrip s.
Proof.
  destruct s as [|c r]; [reflexivity|].
  intros H. apply lstrip_fixed_head in H. cbn [rstrip].
  destruct (rstrip r); rewrite ?H; cbn [lstrip]; now rewrite H.
Qed.

Lemma no_space_cons c w : is_space c = false -> no_space w -> no_space (String c w).
Proof.
  intros Hc Hw a. cbn [occurs]. intros H. apply orb_true_iff in H as [H|H].
  - apply Ascii.eqb_eq in H. now subst.
  - now apply Hw.
Qed.

Lemma no_space_empty : no_space EmptyString.
Proof. intros c H. discriminate H. Qed.

Lemma split_words s :
  Forall (fun w => w <> EmptyString /\ no_space w) (split s).
Proof.
  induction s as [|c r IH]; cbn [split]; [constructor|].
  destruct (is_space c) eqn:Hc; [assumption|].
  destruct r as [|c' r'].
  - constructor; [|constructor].
    split; [discriminate | apply no_space_cons; [assumption | apply no_space_empty]].
  - destruct (is_space c') eqn:Hc'.
    + constructor; [|assumption].
      split; [discriminate | apply no_space_cons; [assumption | apply no_space_empty]].
    + destruct (split (String c' r')) as [|w ws].
      * constructor; [|constructor].
        split; [discriminate | apply no_space_cons; [assumption | apply no_space_empty]].
      * inversion IH as [|? ? [Hw1 Hw2] Hws]. subst.
        constructor; [|assumption].
        split; [discriminate | now apply no_space_cons].
Qed.

Lemma Forall_firstn {A : Type} (P : A -> Prop) n (l : list A) :
  Forall P l -> Forall P (firstn n l).
Proof.
  revert l. induction n as [|n IH]; intros l H; simpl; [constructor|].
  destruct H; constructor; [assumption | now apply IH].
Qed.

End StrFacts.

(* ===================================================================== *)
(** * Deleting and creating chats *)
(* ===================================================================== *)

Module ThreadStore.
Import PyDict DictFacts GeminiChatBot Props.

(** [delete_chat] with its successive updates of the session state
    gathered into one record. *)
Lemma delete_chat_eq chat_id s :
  delete_chat chat_id s =
    if mem chat_id (chats s) then
      let c := del chat_id (chats s) in
      let t := if mem chat_id (chat_titles s)
               then del chat_id (chat_titles s) else chat_titles s in
      (if String.eqb chat_id (active_chat s) then
         if non_empty c
         then SessionState c t (hd EmptyString (keys c))
                           (chat_counter s) (user_input s)
         else SessionState (set "Chat 1" [greeting] c)
                           (set "Chat 1" "Chat 1" t) "Chat 1" 1 (user_input s)
       else SessionState c t (active_chat s) (chat_counter s) (user_input s),
       Rerun)
    else (s, Continue).
Proof.
  unfold delete_chat. destruct s as [c t a n u].
  unfold with_chats, with_chat_titles, with_active_chat, with_chat_counter.
  cbn [chats chat_titles active_chat chat_counter user_input].
  destruct (mem chat_id c); [|reflexivity].
  destruct (mem chat_id t);
    cbn [chats chat_titles active_chat chat_counter user_input];
    (destruct (String.eqb chat_id a); [|reflexivity]);
    destruct (non_empty (del chat_id c)); reflexivity.
Qed.

(** The state [delete_chat] leaves when it removes the only chat, whatever
    the titles were. *)
Lemma delete_chat_sole chat_id s :
  keys (chats s) = [chat_id] ->
  active_chat s = chat_id ->
  exists titles,
    fst (delete_chat chat_id s) =
      SessionState [("Chat 1", [greeting])]
                   (set "Chat 1" "Chat 1" titles) "Chat 1" 1 (user_input s)
    /\ (forall k, In k (keys titles) -> In k (keys (chat_titles s)) /\ k <> chat_id).
Proof.
  intros Hkeys Hact. rewrite delete_chat_eq.
  assert (Hmem : mem chat_id (chats s) = true).
  { apply mem_true_iff. rewrite Hkeys. now left. }
  assert (Hdel : del chat_id (chats s) = []).
  { apply keys_nil. rewrite keys_del, Hkeys. simpl.
    now rewrite String.eqb_refl. }
  rewrite Hmem, Hact, String.eqb_refl, Hdel. cbn.
  destruct (mem chat_id (chat_titles s)) eqn:Hmt.
  - exists (del chat_id (chat_titles s)). split; [reflexivity|].
    intros k Hk. now apply in_keys_del.
  - exists (chat_titles s). split; [reflexivity|].
    intros k Hk. split; [assumption|]. intros ->.
    apply mem_false_iff in Hmt. contradiction.
Qed.

(** C2. Deleting the sole remaining chat, which is then also the active
    one, leaves exactly one chat, named [Chat 1], whose history is the
    single greeting of the model; its title is [Chat 1], it is the active
    chat, and the counter is back to 1. *)
Theorem delete_last_chat_resets chat_id s :
  keys (chats s) = [chat_id] ->
  active_chat s = chat_id ->
  let s' := fst (delete_chat chat_id s) in
  chats s' = [("Chat 1", [Message model "Hello! How can I assist you today?"])]
  /\ get (chat_titles s') "Chat 1" = Some "Chat 1"
  /\ active_chat s' = "Chat 1"
  /\ chat_counter s' = 1%Z.
Proof.
  intros Hkeys Hact s'.
  destruct (delete_chat_sole chat_id s Hkeys Hact) as [titles [Heq _]].
  subst s'. rewrite Heq. cbn [chats chat_titles active_chat chat_counter].
  repeat split. apply get_set_same.
Qed.

Lemma delete_last_chat_resets_witness :
  keys (chats seventh_alone) = ["Chat 7"]
  /\ active_chat seventh_alone = "Chat 7"
  /\ chats (fst (delete_chat "Chat 7" seventh_alone)) = [("Chat 1", [greeting])]
  /\ chat_counter (fst (delete_chat "Chat 7" seventh_alone)) = 1%Z.
Proof.
  split; [reflexivity | split; [reflexivity|]].
  destruct (delete_last_chat_resets "Chat 7" seventh_alone eq_refl eq_refl)
    as (Hc & _ & _ & Hn).
  split; [exact Hc | exact Hn].
Defined.

(** C10. [delete_chat] on an identifier that is not a key of [chats]
    changes nothing: the chats, the titles, the active chat and the counter
    are as before (and no rerun is requested). *)
Theorem delete_chat_absent chat_id s :
  ~ In chat_id (keys (chats s)) ->
  delete_chat chat_id s = (s, Continue).
Proof.
  intros Hnin. unfold delete_chat.
  apply mem_false_iff in Hnin. now rewrite Hnin.
Qed.

Lemma delete_chat_absent_witness :
  ~ In "Chat 3" (keys (chats init_state)) /\
  delete_chat "Chat 3" init_state = (init_state, Continue).
Proof.
  assert (H : ~ In "Chat 3" (keys (chats init_state))).
  { simpl. intros [H|[]]. discriminate H. }
  split; [exact H | exact (delete_chat_absent "Chat 3" init_state H)].
Defined.

Lemma set_same_keys {V W : Type} (d : dict V) (d' : dict W) k v w :
  keys d = keys d' -> keys (set k v d) = keys (set k w d').
Proof.
  intros Hk. destruct (in_dec string_dec k (keys d)) as [Hin|Hnin].
  - rewrite !keys_set_present; congruence.
  - rewrite !keys_set_absent; congruence.
Qed.

Lemma new_chat_same_keys s : same_keys s -> same_keys (new_chat s).
Proof.
  unfold same_keys, new_chat. cbn. apply set_same_keys.
Qed.

Lemma delete_chat_same_keys chat_id s :
  same_keys s -> same_keys (fst (delete_chat chat_id s)).
Proof.
  unfold same_keys. intros Hk. rewrite delete_chat_eq.
  destruct (mem chat_id (chats s)) eqn:Hmem; [|exact Hk].
  rewrite <- (mem_same_keys _ _ chat_id Hk), Hmem.
  assert (Hk' : keys (del chat_id (chats s)) = keys (del chat_id (chat_titles s))).
  { rewrite !keys_del. now rewrite Hk. }
  cbn. destruct (String.eqb chat_id (active_chat s)); [|exact Hk'].
  destruct (non_empty (del chat_id (chats s))); cbn [fst chats chat_titles];
    [exact Hk'|].
  now apply set_same_keys.
Qed.

Lemma apply_op_same_keys s op : same_keys s -> same_keys (apply_op s op).
Proof.
  destruct op; simpl.
  - apply new_chat_same_keys.
  - apply delete_chat_same_keys.
Qed.

(** C5. After every sequence of create and delete operations from the
    initialised session, [chats] and [chat_titles] have the same keys
    (they even list them in the same order). *)
Theorem keys_agree_after_create_delete (ops : list store_op) :
  let s := apply_ops ops (initialize None) in
  keys (chats s) = keys (chat_titles s)
  /\ (forall k, In k (keys (chats s)) <-> In k (keys (chat_titles s))).
Proof.
  assert (H : forall s0, same_keys s0 -> same_keys (apply_ops ops s0)).
  { unfold apply_ops. induction ops as [|op r IH]; intros s0 Hs0; simpl.
    - exact Hs0.
    - apply IH. now apply apply_op_same_keys. }
  specialize (H (initialize None) eq_refl). unfold same_keys in H.
  cbv zeta. split; [exact H | intros k; now rewrite H].
Qed.

End ThreadStore.

(* ===================================================================== *)
(** * One submission *)
(* ===================================================================== *)

Module Submission.
Import PyDict DictFacts GeminiChatBot Props.

Lemma mem_set_same {V : Type} k (v : V) d : mem k (set k v d) = true.
Proof. apply mem_true_iff, in_keys_set. Qed.

(** Appending through the alias and saving at the end amount to one write
    of the final history. *)
Lemma append_then_save s h m :
  let '(s', h') := history_append m (s, h) in
  h' = (h ++ [m])%list
  /\ active_chat s' = active_chat s
  /\ chat_titles s' = chat_titles s
  /\ chat_counter s' = chat_counter s
  /\ user_input s' = user_input s
  /\ mem (active_chat s) (chats s') = mem (active_chat s) (chats s)
  /\ (forall hf, set (active_chat s) hf (chats s') = set (active_chat s) hf (chats s)).
Proof.
  unfold history_append. destruct s as [c t a n u].
  cbn [chats chat_titles active_chat chat_counter user_input].
  destruct (mem a c) eqn:Hmem; unfold with_chats;
    cbn [chats chat_titles active_chat chat_counter user_input];
    repeat split; try assumption.
  - apply mem_set_same.
  - intros hf. apply set_set.
Qed.

Lemma last_but_one_app h u m : last_but_one (h ++ [u; m]) = u.
Proof.
  unfold last_but_one. rewrite length_app. simpl.
  replace (length h + 2 - 2) with (length h + 0) by lia.
  now rewrite app_nth2_plus.
Qed.

(** The handler in closed form, for a prompt that passes its guard. *)
Lemma handle_chat_submission_eq be prompt_text s :
  PyStr.truthy prompt_text = true ->
  handle_chat_submission be prompt_text s =
    let h := get_active_chat_history s in
    let u := Message user prompt_text in
    let api_history := api_history_of (h ++ [u]) in
    match generate_content be api_history with
    | Returns reply_text =>
        let h' := (h ++ [u; Message model reply_text])%list in
        if String.eqb (get_default (chat_titles s) (active_chat s) EmptyString)
                      (active_chat s)
        then
          (submitted s h'
             (set (active_chat s)
                  (fst (generate_title_from_summary be reply_text prompt_text))
                  (chat_titles s)),
           CallModel api_history
             :: snd (generate_title_from_summary be reply_text prompt_text))
        else (submitted s h' (chat_titles s), [CallModel api_history])
    | Raises e =>
        (submitted s (h ++ [u; Message model ("Error: " ++ error_text e)])
                   (chat_titles s),
         [CallModel api_history; StError (error_text e)])
    end.
Proof.
  intros Hp. unfold handle_chat_submission. rewrite Hp. cbn [negb].
  set (h := get_active_chat_history s).
  set (u := Message user prompt_text).
  pose proof (append_then_save s h u) as H1.
  destruct (history_append u (s, h)) as [s1 h1].
  destruct H1 as (-> & Ha1 & Ht1 & Hn1 & Hu1 & Hm1 & Hset1).
  cbv zeta.
  destruct (generate_content be (api_history_of (h ++ [u]))) as [reply|e].
  - pose proof (append_then_save s1 (h ++ [u]) (Message model reply)) as H2.
    destruct (history_append (Message model reply) (s1, (h ++ [u])%list))
      as [s2 h2].
    destruct H2 as (-> & Ha2 & Ht2 & Hn2 & Hu2 & Hm2 & Hset2).
    rewrite <- app_assoc. cbn [app].
    rewrite Ht2, Ht1, Ha2, Ha1.
    replace (Nat.leb 2 (length (h ++ [u; Message model reply]))) with true
      by (symmetry; apply Nat.leb_le; rewrite length_app; cbn [length]; lia).
    rewrite andb_true_r, last_but_one_app. cbn [content u].
    destruct (String.eqb (get_default (chat_titles s) (active_chat s) EmptyString)
                         (active_chat s)).
    + destruct (generate_title_from_summary be reply prompt_text)
        as [new_title tr'].
      cbn [fst snd]. f_equal.
      unfold submitted, save_chat_history, with_user_input, with_chats,
        with_chat_titles.
      cbn [chats chat_titles active_chat chat_counter user_input].
      rewrite Ha2, Ha1, Hn2, Hn1. rewrite Ha1 in Hset2.
      now rewrite Hset2, Hset1.
    + f_equal.
      unfold submitted, save_chat_history, with_user_input, with_chats.
      cbn [chats chat_titles active_chat chat_counter user_input].
      rewrite Ha2, Ha1, Hn2, Hn1, Ht2, Ht1. rewrite Ha1 in Hset2.
      now rewrite Hset2, Hset1.
  - pose proof (append_then_save s1 (h ++ [u])
                  (Message model ("Error: " ++ "An error occurred: " ++ e))) as H2.
    destruct (history_append
                (Message model ("Error: " ++ "An error occurred: " ++ e))
                (s1, (h ++ [u])%list)) as [s2 h2].
    destruct H2 as (-> & Ha2 & Ht2 & Hn2 & Hu2 & Hm2 & Hset2).
    rewrite <- app_assoc. cbn [app]. f_equal.
    unfold submitted, save_chat_history, with_user_input, with_chats.
    cbn [chats chat_titles active_chat chat_counter user_input].
    rewrite Ha2, Ha1, Hn2, Hn1, Ht2, Ht1. rewrite Ha1 in Hset2.
    now rewrite Hset2, Hset1.
Qed.

Lemma truthy_iff (s : string) : PyStr.truthy s = true <-> s <> EmptyString.
Proof. destruct s; simpl; split; congruence. Qed.

Lemma submitted_get s h titles :
  get (chats (submitted s h titles)) (active_chat s) = Some h.
Proof. apply get_set_same. Qed.

Lemma submitted_get_other s h titles k :
  k <> active_chat s -> get (chats (submitted s h titles)) k = get (chats s) k.
Proof. intros Hk. now apply get_set_other. Qed.

(** The history the handler reads is the one stored for the active chat. *)
Lemma stored_history_read s h :
  get (chats s) (active_chat s) = Some h -> get_active_chat_history s = h.
Proof.
  intros Hg. unfold get_active_chat_history, get_default. now rewrite Hg.
Qed.

(** C7. A non-empty prompt whose completion call returns a reply adds two
    turns to the history stored for the active chat, in this order: the
    user turn holding the prompt, then the model turn holding the reply;
    what was stored before stays in front of them; the history of every
    other chat is as before, and no chat is added or removed. *)
Theorem successful_exchange_appends be prompt_text reply_text s h :
  prompt_text <> EmptyString ->
  get (chats s) (active_chat s) = Some h ->
  generate_content be (api_history_of (h ++ [Message user prompt_text]))
    = Returns reply_text ->
  let s' := fst (handle_chat_submission be prompt_text s) in
  get (chats s') (active_chat s)
    = Some (h ++ [Message user prompt_text; Message model reply_text])%list
  /\ active_chat s' = active_chat s
  /\ keys (chats s') = keys (chats s)
  /\ (forall k, k <> active_chat s -> get (chats s') k = get (chats s) k).
Proof.
  intros Hp Hg Hgen s'. subst s'.
  pose proof (stored_history_read s h Hg) as Hread.
  assert (Hin : In (active_chat s) (keys (chats s)))
    by now apply get_some_in_keys in Hg.
  rewrite handle_chat_submission_eq by now apply truthy_iff.
  cbv zeta. rewrite Hread, Hgen.
  destruct (String.eqb _ (active_chat s)); cbn [fst];
    (split; [apply submitted_get | split; [reflexivity|]]);
    (split; [unfold submitted; cbn [chats]; now apply keys_set_present|]);
    intros k Hk; now apply submitted_get_other.
Qed.

Lemma successful_exchange_appends_witness :
  get (chats (final busy_session)) (active_chat (final busy_session))
    = Some [greeting; Message user "Hello"; Message model "Hi there"]
  /\ get (chats (fst (handle_chat_submission friendly_backend "And then?"
                        (final busy_session))))
         "Chat 1"
     = Some [greeting; Message user "Hello"; Message model "Hi there";
             Message user "And then?"; Message model "Hi there"]
  /\ get (chats (fst (handle_chat_submission friendly_backend "And then?"
                        (final busy_session))))
         "Chat 2"
     = Some [greeting].
Proof.
  assert (Hp : "And then?" <> EmptyString) by discriminate.
  assert (Hg : get (chats (final busy_session)) (active_chat (final busy_session))
               = Some [greeting; Message user "Hello"; Message model "Hi there"])
    by reflexivity.
  destruct (successful_exchange_appends friendly_backend "And then?" "Hi there"
              (final busy_session) _ Hp Hg eq_refl) as (H1 & _ & _ & H2).
  split; [exact Hg|]. split; [exact H1|].
  assert (Hne : "Chat 2" <> active_chat (final busy_session)) by discriminate.
  exact (H2 "Chat 2" Hne).
Defined.

(** C3. When the prompt is not empty and the completion call fails, the
    history stored for the active chat gains the user turn and then exactly
    one model turn, whose content contains the cause of the failure; what
    was stored before stays in front of them and no other chat changes;
    title generation is not invoked and the titles are untouched; the
    extended history is stored under the active chat and the input buffer
    is cleared, as after a successful exchange. *)
Theorem failed_completion_recorded be prompt_text e s h :
  prompt_text <> EmptyString ->
  get (chats s) (active_chat s) = Some h ->
  generate_content be (api_history_of (h ++ [Message user prompt_text]))
    = Raises e ->
  let s' := fst (handle_chat_submission be prompt_text s) in
  let tr := snd (handle_chat_submission be prompt_text s) in
  exists error_turn,
    get (chats s') (active_chat s)
      = Some (h ++ [Message user prompt_text; error_turn])%list
    /\ role error_turn = model
    /\ PyStr.contains (content error_turn) e
    /\ (forall text_content original_prompt,
          ~ In (CallTitle text_content original_prompt) tr)
    /\ chat_titles s' = chat_titles s
    /\ keys (chats s') = keys (chats s)
    /\ (forall k, k <> active_chat s -> get (chats s') k = get (chats s) k)
    /\ active_chat s' = active_chat s
    /\ user_input s' = EmptyString.
Proof.
  intros Hp Hg Hgen s' tr. subst s' tr.
  pose proof (stored_history_read s h Hg) as Hread.
  assert (Hin : In (active_chat s) (keys (chats s)))
    by now apply get_some_in_keys in Hg.
  rewrite handle_chat_submission_eq by now apply truthy_iff.
  cbv zeta. rewrite Hread, Hgen. cbn [fst snd].
  exists (Message model ("Error: " ++ error_text e)).
  split; [apply submitted_get|].
  split; [reflexivity|].
  split.
  { exists "Error: An error occurred: ", EmptyString. cbn [content].
    unfold error_text. now rewrite StrFacts.append_empty_r. }
  split.
  { intros a b [H|[H|[]]]; discriminate H. }
  split; [reflexivity|].
  split; [unfold submitted; cbn [chats]; now apply keys_set_present|].
  split; [intros k Hk; now apply submitted_get_other|].
  split; reflexivity.
Qed.

Lemma failed_completion_recorded_witness :
  exists error_turn,
    get (chats (fst (handle_chat_submission failing_backend "And then?"
                       (final busy_session))))
        "Chat 1"
    = Some [greeting; Message user "Hello"; Message model "Hi there";
            Message user "And then?"; error_turn]
    /\ PyStr.contains (content error_turn) "quota exceeded"
    /\ get (chats (fst (handle_chat_submission failing_backend "And then?"
                          (final busy_session))))
           "Chat 2"
       = Some [greeting].
Proof.
  assert (Hp : "And then?" <> EmptyString) by discriminate.
  assert (Hg : get (chats (final busy_session)) (active_chat (final busy_session))
               = Some [greeting; Message user "Hello"; Message model "Hi there"])
    by reflexivity.
  destruct (failed_completion_recorded failing_backend "And then?"
              "quota exceeded" (final busy_session) _ Hp Hg eq_refl)
    as (t & H1 & _ & H2 & _ & _ & _ & H3 & _).
  exists t. split; [exact H1|]. split; [exact H2|].
  assert (Hne : "Chat 2" <> active_chat (final busy_session)) by discriminate.
  exact (H3 "Chat 2" Hne).
Defined.

End Submission.

(* ===================================================================== *)
(** * Sessions: what every pass preserves *)
(* ===================================================================== *)

Module Session.
Import PyDict DictFacts GeminiChatBot Props ThreadStore Submission.

(** ** Chat identifiers *)

Lemma of_int_inj (n m : Z) : PyStr.of_int n = PyStr.of_int m -> n = m.
Proof.
  unfold PyStr.of_int. intros H. apply DecimalZ.to_int_inj.
  assert (Hnz : forall z, Z.to_int z <> Decimal.Pos Decimal.Nil
                          /\ Z.to_int z <> Decimal.Neg Decimal.Nil).
  { intros [|p|p]; simpl; split; try discriminate;
      intros [= Hp]; now apply DecimalPos.Unsigned.to_uint_nonnil in Hp. }
  assert (Hsome : Some (Z.to_int n) = Some (Z.to_int m)).
  { rewrite <- (NilZero.isi (Z.to_int n)) by apply Hnz.
    rewrite <- (NilZero.isi (Z.to_int m)) by apply Hnz.
    now rewrite H. }
  now injection Hsome.
Qed.

(** Two counter values never mint the same identifier. *)
Lemma chat_name_inj (n m : Z) : chat_name n = chat_name m -> n = m.
Proof.
  unfold chat_name. intros H.
  apply StrFacts.append_inv_head in H. now apply of_int_inj.
Qed.

(** ** The passes of the script, case by case *)

Lemma delete_chat_continue chat_id s s' :
  delete_chat chat_id s = (s', Continue) -> s' = s.
Proof.
  rewrite delete_chat_eq. destruct (mem chat_id (chats s)); cbv zeta.
  - discriminate.
  - now intros [= <-].
Qed.

Lemma delete_chat_rerun chat_id s :
  In chat_id (keys (chats s)) -> snd (delete_chat chat_id s) = Rerun.
Proof.
  intros Hin. rewrite delete_chat_eq.
  apply mem_true_iff in Hin. now rewrite Hin.
Qed.

(** The loop reacts to the click on a button of one of the listed chats and
    to nothing else. *)
Lemma sidebar_loop_cases ev ids s :
  sidebar_loop ev ids s = (s, Continue)
  \/ (exists chat_id, In chat_id ids /\ ev = SelectButton chat_id
        /\ sidebar_loop ev ids s = (with_active_chat s chat_id, Rerun))
  \/ (exists chat_id, In chat_id ids /\ ev = DeleteButton chat_id
        /\ sidebar_loop ev ids s = (fst (delete_chat chat_id s), Rerun)).
Proof.
  induction ids as [|chat_id rest IH]; simpl; [now left|].
  destruct (select_clicked ev chat_id) eqn:Hsel.
  { right; left. exists chat_id. destruct ev; try discriminate Hsel.
    simpl in Hsel. apply String.eqb_eq in Hsel. subst.
    split; [now left | split; reflexivity]. }
  destruct (delete_clicked ev chat_id) eqn:Hdel.
  { destruct ev; try discriminate Hdel.
    simpl in Hdel. apply String.eqb_eq in Hdel. subst chat_id0.
    destruct (delete_chat chat_id s) as [s' [|]] eqn:Hd.
    - apply delete_chat_continue in Hd. subst s'.
      destruct IH as [IH|[(k & Hk & Hev & Heq)|(k & Hk & Hev & Heq)]].
      + now left.
      + discriminate Hev.
      + right; right. exists k. split; [now right | split; assumption].
    - right; right. exists chat_id. rewrite Hd.
      split; [now left | split; reflexivity]. }
  destruct IH as [IH|[(k & Hk & Hev & Heq)|(k & Hk & Hev & Heq)]].
  - now left.
  - right; left. exists k. split; [now right | split; assumption].
  - right; right. exists k. split; [now right | split; assumption].
Qed.

Lemma with_user_input_same s : with_user_input s (user_input s) = s.
Proof. now destruct s. Qed.

(** A pass creates a chat, selects one of the chats, deletes one of the
    chats, or goes down to the input and handles what is pending there. *)
Lemma script_run_cases be ev s :
  (ev = NewChatButton /\ script_run be ev s = (new_chat s, []))
  \/ (exists chat_id, In chat_id (keys (chats s)) /\ ev = SelectButton chat_id
        /\ script_run be ev s = (with_active_chat s chat_id, []))
  \/ (exists chat_id, In chat_id (keys (chats s)) /\ ev = DeleteButton chat_id
        /\ script_run be ev s = (fst (delete_chat chat_id s), []))
  \/ (ev <> NewChatButton
      /\ (forall chat_id, ev = DeleteButton chat_id ->
            ~ In chat_id (keys (chats s)))
      /\ script_run be ev s =
           if PyStr.truthy (pending ev s)
           then handle_chat_submission be (pending ev s)
                  (with_user_input s (pending ev s))
           else (s, [])).
Proof.
  unfold script_run. destruct (new_chat_clicked ev) eqn:Hnew.
  { left. destruct ev; try discriminate Hnew. auto. }
  cbv zeta.
  destruct (sidebar_loop_cases ev (sorted_reverse (keys (chats s))) s)
    as [Heq|[(k & Hk & Hev & Heq)|(k & Hk & Hev & Heq)]]; rewrite Heq.
  - right; right; right. split; [intros ->; discriminate Hnew|]. split.
    { intros k -> Hin.
      assert (Hr : snd (sidebar_loop (DeleteButton k)
                          (sorted_reverse (keys (chats s))) s) = Continue)
        by now rewrite Heq.
      clear Heq. revert Hr.
      assert (Hin' : In k (sorted_reverse (keys (chats s))))
        by now apply in_sorted_reverse.
      induction (sorted_reverse (keys (chats s))) as [|k' r IH]; [easy|].
      simpl. destruct (String.eqb_spec k k') as [<-|Hne].
      - pose proof (delete_chat_rerun k s Hin) as Hrr.
        destruct (delete_chat k s) as [s' c]. simpl in Hrr. subst c.
        discriminate.
      - destruct Hin' as [->|Hin']; [contradiction|]. now apply IH. }
    unfold pending. destruct (PyStr.truthy (chat_input ev)) eqn:Hci.
    + cbn [user_input with_user_input]. rewrite Hci. reflexivity.
    + rewrite with_user_input_same. reflexivity.
  - right; left. exists k. apply (proj1 (in_sorted_reverse _ _)) in Hk.
    split; [assumption | split; [assumption | reflexivity]].
  - right; right; left. exists k. apply (proj1 (in_sorted_reverse _ _)) in Hk.
    split; [assumption | split; [assumption | reflexivity]].
Qed.

(** Case analysis on what a pass did; [k] is the chat of the button, [Hk]
    says that it is one of the chats, [Hev] which button it was, and the
    pass is rewritten to its outcome in the goal. *)
Ltac pass_cases be ev s k Hk Hev :=
  let Heq := fresh "Heq" in
  destruct (script_run_cases be ev s)
    as [[_ Heq]|[(k & Hk & Hev & Heq)|[(k & Hk & Hev & Heq)|(_ & _ & Heq)]]];
  rewrite Heq; clear Heq; cbn [fst snd].

Lemma init_store_ok : store_ok init_state.
Proof.
  constructor; cbn.
  - reflexivity.
  - repeat constructor. simpl. tauto.
  - now left.
  - lia.
  - intros k [<-|[]]. exists 1%Z. split; [lia | reflexivity].
Qed.

Lemma new_chat_eq s :
  new_chat s =
    let new_id := chat_name (chat_counter s + 1) in
    SessionState (set new_id [greeting] (chats s))
                 (set new_id new_id (chat_titles s))
                 new_id (chat_counter s + 1) (user_input s).
Proof. now destruct s. Qed.

(** The identifier the next creation mints names no present chat. *)
Lemma next_name_fresh s :
  store_ok s -> ~ In (chat_name (chat_counter s + 1)) (keys (chats s)).
Proof.
  intros Hok Hin. destruct (ok_names s Hok _ Hin) as (n & Hn & Heq).
  apply chat_name_inj in Heq. lia.
Qed.

Lemma new_chat_ok s : store_ok s -> store_ok (new_chat s).
Proof.
  intros Hok. pose proof (next_name_fresh s Hok) as Hfresh.
  rewrite new_chat_eq. cbv zeta.
  constructor; cbn [chats chat_titles active_chat chat_counter].
  - apply set_same_keys, (ok_same_keys s Hok).
  - apply NoDup_keys_set, (ok_nodup s Hok).
  - apply in_keys_set.
  - pose proof (ok_counter s Hok). lia.
  - intros k Hin. rewrite keys_set_absent in Hin by assumption.
    apply in_app_or in Hin. destruct Hin as [Hin|[<-|[]]].
    + destruct (ok_names s Hok k Hin) as (n & Hn & ->).
      exists n. split; [lia | reflexivity].
    + exists (chat_counter s + 1)%Z. pose proof (ok_counter s Hok).
      split; [lia | reflexivity].
Qed.

Lemma select_ok s chat_id :
  store_ok s -> In chat_id (keys (chats s)) ->
  store_ok (with_active_chat s chat_id).
Proof.
  intros [H1 H2 H3 H4 H5] Hin. constructor; cbn; assumption.
Qed.

(** A duplicate-free list that holds [k] and nothing but [k] is [[k]]. *)
Lemma sole_key (k : string) (l : list string) :
  NoDup l -> In k l -> filter (fun x => negb (String.eqb x k)) l = [] ->
  l = [k].
Proof.
  intros Hnd Hin Hf.
  assert (Hall : forall x, In x l -> x = k).
  { intros x Hx. destruct (String.eqb_spec x k) as [|Hne]; [assumption|].
    assert (Hx' : In x (filter (fun x => negb (String.eqb x k)) l)).
    { apply filter_In. split; [assumption|].
      apply negb_true_iff. now apply String.eqb_neq. }
    rewrite Hf in Hx'. destruct Hx'. }
  destruct l as [|a r]; [destruct Hin|].
  assert (a = k) by (apply Hall; now left). subst a.
  destruct r as [|b r]; [reflexivity|].
  assert (b = k) by (apply Hall; right; now left). subst b.
  inversion Hnd as [|? ? Hnotin _]. exfalso. apply Hnotin. now left.
Qed.

Lemma delete_chat_ok chat_id s :
  store_ok s -> store_ok (fst (delete_chat chat_id s)).
Proof.
  intros Hok. pose proof Hok as [H1 H2 H3 H4 H5].
  pose proof (delete_chat_same_keys chat_id s H1) as Hsame.
  unfold same_keys in Hsame. revert Hsame.
  rewrite delete_chat_eq.
  destruct (mem chat_id (chats s)) eqn:Hmem; [|intros _; exact Hok].
  cbv zeta. destruct (String.eqb_spec chat_id (active_chat s)) as [Heq|Hne].
  - destruct (non_empty (del chat_id (chats s))) eqn:Htr; cbn; intros Hsame.
    + constructor; cbn.
      * exact Hsame.
      * now apply NoDup_keys_del.
      * now apply non_empty_keys.
      * exact H4.
      * intros k Hk. apply in_keys_del in Hk. now apply H5.
    + apply non_empty_false in Htr. rewrite Htr in *. constructor; cbn.
      * exact Hsame.
      * repeat constructor. simpl. tauto.
      * now left.
      * lia.
      * intros k [<-|[]]. exists 1%Z. split; [lia | reflexivity].
  - cbn. intros Hsame. constructor; cbn.
    + exact Hsame.
    + now apply NoDup_keys_del.
    + apply in_keys_del. split; [assumption | congruence].
    + exact H4.
    + intros k Hk. apply in_keys_del in Hk. now apply H5.
Qed.

Lemma submitted_ok s h titles :
  store_ok s -> keys titles = keys (chat_titles s) ->
  store_ok (submitted s h titles).
Proof.
  intros [H1 H2 H3 H4 H5] Ht. unfold submitted.
  constructor; cbn [chats chat_titles active_chat chat_counter];
    rewrite ?keys_set_present by assumption;
    try assumption; congruence.
Qed.

Lemma with_user_input_ok s u : store_ok s -> store_ok (with_user_input s u).
Proof. intros [H1 H2 H3 H4 H5]. constructor; cbn; assumption. Qed.

Lemma handle_chat_submission_ok be prompt_text s :
  PyStr.truthy prompt_text = true -> store_ok s ->
  well_formed (fst (handle_chat_submission be prompt_text s)).
Proof.
  intros Hp Hok. rewrite handle_chat_submission_eq by assumption. cbv zeta.
  assert (Hin : In (active_chat s) (keys (chat_titles s))).
  { rewrite <- (ok_same_keys s Hok). apply (ok_active s Hok). }
  destruct (generate_content be _) as [reply|e].
  - destruct (String.eqb _ (active_chat s)); cbn [fst];
      (split; [|reflexivity]); apply submitted_ok; try assumption.
    + now apply keys_set_present.
    + reflexivity.
  - cbn [fst]. split; [|reflexivity]. now apply submitted_ok.
Qed.

(** Every pass of the script keeps the session well formed. *)
Lemma script_run_ok be ev s :
  well_formed s -> well_formed (fst (script_run be ev s)).
Proof.
  intros [Hok Hin].
  pass_cases be ev s k Hk Hevk.
  - split; [now apply new_chat_ok | now rewrite new_chat_eq].
  - split; [now apply select_ok | exact Hin].
  - split; [now apply delete_chat_ok|].
    rewrite delete_chat_eq. destruct (mem k (chats s)); cbv zeta; [|exact Hin].
    destruct (String.eqb k (active_chat s)); [|exact Hin].
    destruct (non_empty (del k (chats s))); exact Hin.
  - destruct (PyStr.truthy (pending ev s)) eqn:Hp.
    + apply handle_chat_submission_ok; [assumption|].
      now apply with_user_input_ok.
    + now split.
Qed.

Lemma run_ok passes : forall s, well_formed s -> well_formed (fst (run passes s)).
Proof.
  induction passes as [|[be ev] rest IH]; intros s Hs; simpl; [assumption|].
  pose proof (script_run_ok be ev s Hs) as H1.
  destruct (script_run be ev s) as [s1 tr1]. cbn [fst] in H1.
  specialize (IH s1 H1). destruct (run rest s1) as [s2 tr2]. exact IH.
Qed.

Lemma reachable_well_formed s : reachable s -> well_formed s.
Proof.
  intros [passes ->]. apply run_ok. split; [apply init_store_ok | reflexivity].
Qed.

(** ** The counter *)

Lemma handle_chat_submission_counter be prompt_text s :
  chat_counter (fst (handle_chat_submission be prompt_text s)) = chat_counter s.
Proof.
  destruct (PyStr.truthy prompt_text) eqn:Hp.
  - rewrite handle_chat_submission_eq by assumption. cbv zeta.
    destruct (generate_content be _); [|reflexivity].
    destruct (String.eqb _ (active_chat s)); reflexivity.
  - unfold handle_chat_submission. now rewrite Hp.
Qed.

Lemma deletes_sole_chat_iff ev s :
  deletes_sole_chat ev s = true
  <-> exists chat_id, ev = DeleteButton chat_id /\ keys (chats s) = [chat_id].
Proof.
  unfold deletes_sole_chat. split.
  - destruct ev as [| |k|k|p]; try discriminate.
    destruct (keys (chats s)) as [|k1 [|k2 r]]; try discriminate.
    intros H. apply String.eqb_eq in H. subst k1. now exists k.
  - intros (k & -> & ->). apply String.eqb_refl.
Qed.

(** A pass never lowers the counter, unless it deletes the sole chat. *)
Lemma script_run_counter be ev s :
  well_formed s ->
  (chat_counter s <= chat_counter (fst (script_run be ev s)))%Z
  \/ (exists chat_id, ev = DeleteButton chat_id
        /\ keys (chats s) = [chat_id]
        /\ chat_counter (fst (script_run be ev s)) = 1%Z).
Proof.
  intros [Hok Hin].
  pass_cases be ev s k Hk Hev.
  - left. rewrite new_chat_eq. cbn. lia.
  - left. cbn. lia.
  - rewrite delete_chat_eq. apply mem_true_iff in Hk as Hmem. rewrite Hmem.
    cbv zeta. destruct (String.eqb k (active_chat s)); [|left; cbn; lia].
    destruct (non_empty (del k (chats s))) eqn:Htr; [left; cbn; lia|].
    right. exists k. split; [assumption|]. split; [|reflexivity].
    apply sole_key; [apply (ok_nodup s Hok) | assumption |].
    rewrite <- keys_del. apply non_empty_false in Htr. now rewrite Htr.
  - left. destruct (PyStr.truthy (pending ev s)); [|cbn; lia].
    rewrite handle_chat_submission_counter. cbn. lia.
Qed.

(** The pass that deletes the sole chat leaves the counter at 1. *)
Lemma script_run_reset be chat_id s :
  well_formed s ->
  keys (chats s) = [chat_id] ->
  chat_counter (fst (script_run be (DeleteButton chat_id) s)) = 1%Z.
Proof.
  intros [Hok Hinput] Hkeys.
  assert (Hin : In chat_id (keys (chats s))) by (rewrite Hkeys; now left).
  assert (Hact : active_chat s = chat_id).
  { pose proof (ok_active s Hok) as Ha. rewrite Hkeys in Ha.
    destruct Ha as [Ha|[]]. now symmetry. }
  destruct (script_run_cases be (DeleteButton chat_id) s)
    as [[Hev _]|[(k & _ & Hev & _)|[(k & _ & Hev & Heq)|(_ & Hnot & _)]]];
    try discriminate Hev.
  - injection Hev as <-. rewrite Heq. cbn [fst].
    destruct (delete_chat_sole chat_id s Hkeys Hact) as (titles & -> & _).
    reflexivity.
  - exfalso. now apply (Hnot chat_id).
Qed.

(** What the pass of a click on the new-chat button mints. *)
Lemma script_run_mints be s :
  store_ok s ->
  let s' := fst (script_run be NewChatButton s) in
  chat_counter s' = (chat_counter s + 1)%Z
  /\ active_chat s' = chat_name (chat_counter s + 1)
  /\ ~ In (active_chat s') (keys (chats s))
  /\ In (active_chat s') (keys (chats s')).
Proof.
  intros Hok s'. subst s'.
  change (script_run be NewChatButton s) with (new_chat s, @nil effect).
  cbn [fst]. rewrite new_chat_eq. cbv zeta.
  cbn [chat_counter active_chat chats].
  split; [reflexivity|]. split; [reflexivity|].
  split; [now apply next_name_fresh | apply in_keys_set].
Qed.

Lemma run_fst_cons be ev rest s :
  fst (run ((be, ev) :: rest) s) = fst (run rest (fst (script_run be ev s))).
Proof.
  simpl. destruct (script_run be ev s) as [s1 tr1]. cbn [fst].
  now destruct (run rest s1).
Qed.

(** In a run without reset the counter does not go down, and every
    identifier minted comes from a counter value above the one the run
    started with, each from a value of its own. *)
Lemma minted_above passes :
  forall s,
    well_formed s ->
    no_reset passes s = true ->
    (chat_counter s <= chat_counter (fst (run passes s)))%Z
    /\ Forall (fun id => exists n, (chat_counter s < n)%Z /\ id = chat_name n)
              (minted passes s)
    /\ NoDup (minted passes s).
Proof.
  induction passes as [|[be ev] rest IH]; intros s Hwf Hno.
  - cbn. split; [lia|]. split; constructor.
  - cbn [no_reset] in Hno. apply andb_true_iff in Hno as [Hsole Hno].
    apply negb_true_iff in Hsole.
    pose proof (script_run_ok be ev s Hwf) as Hwf1.
    assert (Hle : (chat_counter s <= chat_counter (fst (script_run be ev s)))%Z).
    { destruct (script_run_counter be ev s Hwf) as [H|(k & Hev & Hk & _)];
        [exact H|].
      assert (Ht : deletes_sole_chat ev s = true)
        by (apply deletes_sole_chat_iff; now exists k).
      congruence. }
    destruct (IH _ Hwf1 Hno) as (Hc & Hall & Hnd).
    rewrite run_fst_cons. cbn [minted]. cbv zeta.
    split; [lia|].
    assert (Hall' : Forall (fun id => exists n, (chat_counter s < n)%Z
                                                /\ id = chat_name n)
                           (minted rest (fst (script_run be ev s)))).
    { eapply Forall_impl; [|exact Hall].
      intros id (n & Hn & ->). exists n. split; [lia | reflexivity]. }
    destruct (new_chat_clicked ev) eqn:Hnew; [|now split].
    destruct ev; try discriminate Hnew.
    destruct (script_run_mints be s (proj1 Hwf)) as (Hcnt & Hid & _).
    cbv zeta in Hcnt, Hid. split.
    + constructor; [|exact Hall'].
      exists (chat_counter s + 1)%Z. split; [lia | exact Hid].
    + constructor; [|exact Hnd].
      intros Hin. rewrite Forall_forall in Hall.
      destruct (Hall _ Hin) as (n & Hn & Heq).
      rewrite Hid in Heq. apply chat_name_inj in Heq. lia.
Qed.

(** C1, as the script has it. From a reachable session state, a pass never
    lowers the counter, except the pass that deletes the sole remaining
    chat, which sets it back to 1. The pass of a click on the new-chat
    button raises the counter by one and mints the identifier of that new
    value, which is not the identifier of any chat of the store. And in a
    run in which no pass deletes the sole remaining chat, the counter does
    not go down, no identifier is minted twice, and none of the minted
    identifiers is that of a chat the store held when the run started. *)
Theorem counter_drops_only_on_reset :
  (forall be ev s,
     reachable s ->
     let s' := fst (script_run be ev s) in
     ((chat_counter s <= chat_counter s')%Z
      \/ (exists chat_id, ev = DeleteButton chat_id
            /\ keys (chats s) = [chat_id] /\ chat_counter s' = 1%Z))
     /\ (deletes_sole_chat ev s = false ->
         (chat_counter s <= chat_counter s')%Z)
     /\ (deletes_sole_chat ev s = true -> chat_counter s' = 1%Z))
  /\ (forall be s,
        reachable s ->
        let s' := fst (script_run be NewChatButton s) in
        chat_counter s' = (chat_counter s + 1)%Z
        /\ active_chat s' = chat_name (chat_counter s + 1)
        /\ ~ In (active_chat s') (keys (chats s))
        /\ In (active_chat s') (keys (chats s')))
  /\ (forall passes s,
        reachable s ->
        no_reset passes s = true ->
        (chat_counter s <= chat_counter (fst (run passes s)))%Z
        /\ NoDup (minted passes s)
        /\ (forall id, In id (minted passes s) -> ~ In id (keys (chats s)))).
Proof.
  split; [|split].
  - intros be ev s Hr s'. subst s'. apply reachable_well_formed in Hr.
    split; [now apply script_run_counter|]. split.
    + intros Hsole.
      destruct (script_run_counter be ev s Hr) as [H|(k & Hev & Hk & _)];
        [exact H|].
      assert (Ht : deletes_sole_chat ev s = true)
        by (apply deletes_sole_chat_iff; now exists k).
      congruence.
    + intros Hsole. apply deletes_sole_chat_iff in Hsole as (k & -> & Hk).
      now apply script_run_reset.
  - intros be s Hr. apply reachable_well_formed in Hr.
    apply script_run_mints, (proj1 Hr).
  - intros passes s Hr Hno. apply reachable_well_formed in Hr.
    destruct (minted_above passes s Hr Hno) as (Hc & Hall & Hnd).
    split; [exact Hc|]. split; [exact Hnd|].
    intros id Hin Hkey. rewrite Forall_forall in Hall.
    destruct (Hall id Hin) as (n & Hn & ->).
    destruct (ok_names s (proj1 Hr) _ Hkey) as (m & Hm & Heq).
    apply chat_name_inj in Heq. lia.
Qed.

Lemma counter_drops_only_on_reset_witness :
  reachable (final two_then_one)
  /\ chat_counter (final two_then_one) = 2%Z
  /\ chat_counter (fst (script_run friendly_backend (DeleteButton "Chat 2")
                          (final two_then_one))) = 1%Z
  /\ (chat_counter (final two_then_one)
      <= chat_counter (fst (script_run friendly_backend (SelectButton "Chat 2")
                              (final two_then_one))))%Z
  /\ active_chat (fst (script_run friendly_backend NewChatButton
                         (final two_then_one))) = "Chat 3"
  /\ no_reset two_more_chats (final two_then_one) = true
  /\ minted two_more_chats (final two_then_one) = ["Chat 3"; "Chat 4"]
  /\ NoDup (minted two_more_chats (final two_then_one)).
Proof.
  assert (Hr : reachable (final two_then_one))
    by (exists two_then_one; reflexivity).
  destruct counter_drops_only_on_reset as (Hstep & Hmint & Hrun).
  split; [exact Hr|]. split; [reflexivity|].
  split.
  { exact (proj2 (proj2 (Hstep friendly_backend (DeleteButton "Chat 2")
                           (final two_then_one) Hr)) eq_refl). }
  split.
  { exact (proj1 (proj2 (Hstep friendly_backend (SelectButton "Chat 2")
                           (final two_then_one) Hr)) eq_refl). }
  split.
  { exact (proj1 (proj2 (Hmint friendly_backend (final two_then_one) Hr))). }
  split; [reflexivity|]. split; [reflexivity|].
  exact (proj1 (proj2 (Hrun two_more_chats (final two_then_one) Hr eq_refl))).
Defined.

(** C1 fails as it is worded: once a second chat was created and the first
    deleted, the counter is 2; deleting the chat that is left sets it to 1,
    and the next creation mints [Chat 2] for the second time. *)
Lemma counter_decreases_counterexample :
  reachable (final two_then_one)
  /\ chat_counter (final two_then_one) = 2%Z
  /\ chat_counter
       (fst (script_run friendly_backend (DeleteButton "Chat 2")
               (final two_then_one))) = 1%Z
  /\ ~ (chat_counter (final two_then_one)
        <= chat_counter
             (fst (script_run friendly_backend (DeleteButton "Chat 2")
                     (final two_then_one))))%Z
  /\ active_chat (final [(friendly_backend, NewChatButton)]) = "Chat 2"
  /\ active_chat
       (final (two_then_one
               ++ [(friendly_backend, DeleteButton "Chat 2");
                   (friendly_backend, NewChatButton)])) = "Chat 2".
Proof.
  split; [now exists two_then_one|].
  split; [reflexivity|]. split; [reflexivity|].
  split; [|split; reflexivity].
  intros H. vm_compute in H. now apply H.
Qed.

(** ** The active chat *)

Lemma script_run_active be ev s :
  In (active_chat s) (keys (chats s)) ->
  In (active_chat (fst (script_run be ev s)))
     (keys (chats (fst (script_run be ev s)))).
Proof.
  intros Hin.
  pass_cases be ev s k Hk Hevk.
  - rewrite new_chat_eq. cbn [active_chat chats]. apply in_keys_set.
  - exact Hk.
  - rewrite delete_chat_eq. apply mem_true_iff in Hk as Hmem. rewrite Hmem.
    cbv zeta. destruct (String.eqb_spec k (active_chat s)) as [Heq|Hne].
    + destruct (non_empty (del k (chats s))) eqn:Htr; cbn [fst active_chat chats].
      * now apply non_empty_keys.
      * apply in_keys_set.
    + cbn [fst active_chat chats]. apply in_keys_del.
      split; [assumption | congruence].
  - destruct (PyStr.truthy (pending ev s)) eqn:Hp; [|exact Hin].
    rewrite handle_chat_submission_eq by assumption. cbv zeta.
    destruct (generate_content be _);
      [destruct (String.eqb _ (active_chat (with_user_input s (pending ev s))))|];
      cbn [fst submitted active_chat chats]; apply in_keys_set.
Qed.

(** C6. In every reachable session state the active chat is a key of
    [chats], and every pass of the script (create, select, delete, submit)
    keeps it so. The sidebar offers a select button and a delete button
    for the chats of the store and for no other identifier. *)
Theorem active_chat_is_a_chat :
  (forall s, reachable s -> In (active_chat s) (keys (chats s)))
  /\ (forall be ev s,
        In (active_chat s) (keys (chats s)) ->
        In (active_chat (fst (script_run be ev s)))
           (keys (chats (fst (script_run be ev s))))).
Proof.
  split; [|exact script_run_active].
  intros s Hr. apply reachable_well_formed in Hr. apply (ok_active s (proj1 Hr)).
Qed.

Lemma active_chat_is_a_chat_witness :
  In (active_chat init_state) (keys (chats init_state))
  /\ In (active_chat (fst (script_run friendly_backend
                             (DeleteButton "Chat 1") init_state)))
        (keys (chats (fst (script_run friendly_backend
                             (DeleteButton "Chat 1") init_state)))).
Proof.
  assert (Hr : reachable init_state) by (exists []; reflexivity).
  assert (H : In (active_chat init_state) (keys (chats init_state)))
    by exact (proj1 active_chat_is_a_chat init_state Hr).
  split; [exact H|].
  exact (proj2 active_chat_is_a_chat friendly_backend (DeleteButton "Chat 1")
           init_state H).
Defined.

End Session.

(* ===================================================================== *)
(** * Titles *)
(* ===================================================================== *)

Module Titles.
Import PyStr PyDict DictFacts StrFacts GeminiChatBot Props.
Import ThreadStore Submission Session.

(** ** When the title is generated *)

(** A call of [generate_title_from_summary] is one title generation,
    whether the title model answers or not. *)
Lemma title_calls_generate be text_content original_prompt :
  title_calls (snd (generate_title_from_summary be text_content original_prompt))
  = 1.
Proof.
  unfold generate_title_from_summary.
  destruct (title_generate_content be _); reflexivity.
Qed.

(** A successful exchange generates a title exactly when the title of the
    active chat is still its identifier, and stores what it gets. *)
Lemma retitle_on_success be prompt_text reply_text s :
  prompt_text <> EmptyString ->
  generate_content be
    (api_history_of (get_active_chat_history s ++ [Message user prompt_text]))
    = Returns reply_text ->
  title_calls (snd (handle_chat_submission be prompt_text s))
    = (if has_default_title s then 1 else 0)
  /\ chat_titles (fst (handle_chat_submission be prompt_text s))
     = (if has_default_title s
        then set (active_chat s)
                 (fst (generate_title_from_summary be reply_text prompt_text))
                 (chat_titles s)
        else chat_titles s).
Proof.
  intros Hp Hgen.
  rewrite handle_chat_submission_eq by now apply truthy_iff.
  cbv zeta. rewrite Hgen. unfold has_default_title.
  destruct (String.eqb _ (active_chat s)); cbn [fst snd].
  - split; [|reflexivity]. unfold title_calls. cbn [filter].
    apply title_calls_generate.
  - split; reflexivity.
Qed.

Lemma in_keys_non_empty {V : Type} k (d : dict V) : In k (keys d) -> non_empty d = true.
Proof. destruct d; simpl; [tauto | reflexivity]. Qed.

(** One pass leaves alone a chat whose title is not its identifier, unless
    it deletes that chat. *)
Lemma retitle_step be ev s t title :
  well_formed s ->
  get (chat_titles s) t = Some title ->
  title <> t ->
  ev <> DeleteButton t ->
  (if String.eqb (active_chat s) t
   then title_calls (snd (script_run be ev s)) else 0) = 0
  /\ get (chat_titles (fst (script_run be ev s))) t = Some title.
Proof.
  intros [Hok Hinput] Hget Hne Hev.
  assert (Hin : In t (keys (chats s))).
  { rewrite (ok_same_keys s Hok). now apply get_some_in_keys in Hget. }
  pass_cases be ev s k Hk Hevk.
  - split; [now destruct (String.eqb (active_chat s) t)|].
    rewrite new_chat_eq. cbn [chat_titles]. rewrite get_set_other; [assumption|].
    intros ->. now apply (next_name_fresh s Hok).
  - split; [now destruct (String.eqb (active_chat s) t) | assumption].
  - split; [now destruct (String.eqb (active_chat s) t)|].
    assert (Hkt : t <> k) by (intros <-; now apply Hev).
    rewrite delete_chat_eq. apply mem_true_iff in Hk as Hmem. rewrite Hmem.
    rewrite <- (mem_same_keys _ _ k (ok_same_keys s Hok)), Hmem. cbv zeta.
    assert (Htr : non_empty (del k (chats s)) = true).
    { apply (in_keys_non_empty t). apply in_keys_del. now split. }
    rewrite Htr.
    destruct (String.eqb k (active_chat s)); cbn [fst chat_titles];
      now rewrite get_del_other.
  - destruct (PyStr.truthy (pending ev s)) eqn:Hp;
      [|split; [now destruct (String.eqb (active_chat s) t) | assumption]].
    rewrite handle_chat_submission_eq by assumption. cbv zeta.
    cbn [active_chat chat_titles with_user_input].
    destruct (generate_content be _) as [reply|e];
      [|split; [now destruct (String.eqb (active_chat s) t) | assumption]].
    destruct (String.eqb (get_default (chat_titles s) (active_chat s) EmptyString)
                         (active_chat s)) eqn:Hdef;
      [|split; [now destruct (String.eqb (active_chat s) t) | assumption]].
    assert (Hat : active_chat s <> t).
    { intros Heq. rewrite Heq in Hdef. unfold get_default in Hdef.
      rewrite Hget in Hdef. now apply String.eqb_eq in Hdef. }
    cbn [fst snd submitted chat_titles]. split.
    + apply String.eqb_neq in Hat. now rewrite Hat.
    + rewrite get_set_other; [assumption | congruence].
Qed.

Lemma retitle_never_again passes t title :
  title <> t ->
  Forall (fun p : pass => snd p <> DeleteButton t) passes ->
  forall s,
    well_formed s ->
    get (chat_titles s) t = Some title ->
    retitles_of t passes s = 0
    /\ get (chat_titles (fst (run passes s))) t = Some title.
Proof.
  intros Hne Hall. induction Hall as [|[be ev] rest Hev _ IH];
    intros s Hwf Hget; simpl; [now split|].
  destruct (retitle_step be ev s t title Hwf Hget Hne Hev) as [H0 H1].
  pose proof (script_run_ok be ev s Hwf) as Hwf1.
  destruct (script_run be ev s) as [s1 tr1]. cbn [fst snd] in *.
  destruct (IH s1 Hwf1 H1) as [H2 H3].
  destruct (run rest s1) as [s2 tr2]. cbn [fst] in *.
  split; [now rewrite H0, H2 | assumption].
Qed.

(** A pass that follows a submission runs the handler on that prompt. *)
Lemma script_run_chat_input be prompt_text s :
  prompt_text <> EmptyString ->
  script_run be (ChatInput prompt_text) s
  = handle_chat_submission be prompt_text (with_user_input s prompt_text).
Proof.
  intros Hp. apply truthy_iff in Hp.
  unfold script_run. cbn [new_chat_clicked].
  assert (Hloop : forall ids, sidebar_loop (ChatInput prompt_text) ids s
                              = (s, Continue)).
  { induction ids as [|k r IH]; [reflexivity | exact IH]. }
  rewrite Hloop. cbn [chat_input]. rewrite Hp.
  cbn [user_input with_user_input]. now rewrite Hp.
Qed.

(** From a chat with its default title: one successful exchange, whose
    title is not the identifier, and then any passes that keep the chat
    make one title generation in all. *)
Lemma retitle_exactly_once be prompt_text reply_text passes s :
  reachable s ->
  prompt_text <> EmptyString ->
  generate_content be
    (api_history_of (get_active_chat_history s ++ [Message user prompt_text]))
    = Returns reply_text ->
  has_default_title s = true ->
  fst (generate_title_from_summary be reply_text prompt_text) <> active_chat s ->
  Forall (fun p : pass => snd p <> DeleteButton (active_chat s)) passes ->
  retitles_of (active_chat s) ((be, ChatInput prompt_text) :: passes) s = 1.
Proof.
  intros Hr Hp Hgen Hdef Hne Hall.
  apply reachable_well_formed in Hr.
  pose proof (script_run_ok be (ChatInput prompt_text) s Hr) as Hwf1.
  cbn [retitles_of]. rewrite script_run_chat_input in * by assumption.
  destruct (retitle_on_success be prompt_text reply_text
              (with_user_input s prompt_text) Hp Hgen) as [Hcalls Htitles].
  change (has_default_title (with_user_input s prompt_text))
    with (has_default_title s) in *.
  rewrite Hdef in Hcalls, Htitles.
  cbn [active_chat chat_titles with_user_input] in Htitles.
  destruct (handle_chat_submission be prompt_text
              (with_user_input s prompt_text)) as [s1 tr1].
  cbn [fst snd] in *. rewrite String.eqb_refl, Hcalls.
  destruct (retitle_never_again passes (active_chat s)
              (fst (generate_title_from_summary be reply_text prompt_text))
              Hne Hall s1 Hwf1) as [H0 _].
  { rewrite Htitles. apply get_set_same. }
  now rewrite H0.
Qed.

(** C4, as the script has it. A successful exchange generates a title
    exactly when the title stored for the active chat is still its
    identifier, and stores the title it gets; and from a reachable state in
    which the title of a chat differs from its identifier, no sequence of
    passes that does not delete that chat generates a title for it again,
    nor changes its title. So a chat with its default title whose first
    successful exchange yields a title other than its identifier gets one
    title generation in all, whatever exchanges follow. *)
Theorem retitle_only_while_default :
  (forall be prompt_text reply_text s,
     prompt_text <> EmptyString ->
     generate_content be
       (api_history_of (get_active_chat_history s ++ [Message user prompt_text]))
       = Returns reply_text ->
     title_calls (snd (handle_chat_submission be prompt_text s))
       = (if has_default_title s then 1 else 0)
     /\ chat_titles (fst (handle_chat_submission be prompt_text s))
        = (if has_default_title s
           then set (active_chat s)
                    (fst (generate_title_from_summary be reply_text prompt_text))
                    (chat_titles s)
           else chat_titles s))
  /\ (forall passes t title s,
        reachable s ->
        get (chat_titles s) t = Some title ->
        title <> t ->
        Forall (fun p : pass => snd p <> DeleteButton t) passes ->
        retitles_of t passes s = 0
        /\ get (chat_titles (fst (run passes s))) t = Some title)
  /\ (forall be prompt_text reply_text passes s,
        reachable s ->
        prompt_text <> EmptyString ->
        generate_content be
          (api_history_of
             (get_active_chat_history s ++ [Message user prompt_text]))
          = Returns reply_text ->
        has_default_title s = true ->
        fst (generate_title_from_summary be reply_text prompt_text)
          <> active_chat s ->
        Forall (fun p : pass => snd p <> DeleteButton (active_chat s)) passes ->
        retitles_of (active_chat s) ((be, ChatInput prompt_text) :: passes) s
        = 1).
Proof.
  split; [exact retitle_on_success|]. split; [|exact retitle_exactly_once].
  intros passes t title s Hr Hget Hne Hall.
  apply retitle_never_again; try assumption.
  now apply reachable_well_formed.
Qed.

Lemma retitle_only_while_default_witness :
  title_calls (snd (handle_chat_submission friendly_backend "Hello" init_state))
    = 1
  /\ retitles_of "Chat 1"
       [(friendly_backend, ChatInput "And then?");
        (friendly_backend, NewChatButton);
        (friendly_backend, SelectButton "Chat 1");
        (friendly_backend, ChatInput "Once more")]
       (final [(friendly_backend, ChatInput "Hello")]) = 0
  /\ retitles_of "Chat 1"
       [(friendly_backend, ChatInput "Hello");
        (friendly_backend, ChatInput "And then?");
        (failing_backend, ChatInput "Anyone?");
        (friendly_backend, ChatInput "Once more")]
       init_state = 1.
Proof.
  assert (Hp : "Hello" <> EmptyString) by discriminate.
  assert (Hne : "Greetings" <> "Chat 1") by discriminate.
  split; [|split].
  - exact (proj1 (proj1 retitle_only_while_default friendly_backend "Hello"
                    "Hi there" init_state Hp eq_refl)).
  - assert (Hr : reachable (final [(friendly_backend, ChatInput "Hello")]))
      by (exists [(friendly_backend, ChatInput "Hello")]; reflexivity).
    refine (proj1 (proj1 (proj2 retitle_only_while_default) _ "Chat 1"
                     "Greetings" _ Hr eq_refl Hne _)).
    repeat constructor; discriminate.
  - assert (Hr : reachable init_state) by (exists []; reflexivity).
    refine (proj2 (proj2 retitle_only_while_default) friendly_backend "Hello"
              "Hi there" _ init_state Hr Hp eq_refl eq_refl Hne _).
    repeat constructor; discriminate.
Defined.

(** C4 fails as it is worded: when the title model answers [Chat 1] for the
    chat [Chat 1], the stored title is still the identifier, and the second
    successful exchange generates a title again. *)
Lemma retitle_twice_counterexample :
  retitles_of "Chat 1"
    [(echoing_backend, ChatInput "Hello");
     (echoing_backend, ChatInput "And then?")]
    init_state = 2
  /\ snd (run [(echoing_backend, ChatInput "Hello");
               (echoing_backend, ChatInput "And then?")] init_state)
     = [CallModel [ApiMessage model ["Hello! How can I assist you today?"];
                   ApiMessage user ["Hello"]];
        CallTitle "Hi there" "Hello";
        CallModel [ApiMessage model ["Hello! How can I assist you today?"];
                   ApiMessage user ["Hello"];
                   ApiMessage model ["Hi there"];
                   ApiMessage user ["And then?"]];
        CallTitle "Hi there" "And then?"].
Proof. split; reflexivity. Qed.

(** ** What is kept of the answer of the title model *)

Lemma sanitize_title_eq text : sanitize_title text = sanitize_spec (strip text).
Proof. reflexivity. Qed.

Lemma occurs_sanitize_spec c text :
  occurs c (first_line text) = false \/ c = "*"%char \/ c = DQUOTE ->
  occurs c (sanitize_spec text) = false.
Proof.
  intros H. unfold sanitize_spec. apply occurs_slice_to, occurs_strip.
  destruct H as [H|[->| ->]].
  - now apply occurs_replace_other, occurs_replace_other.
  - apply occurs_replace_other, occurs_replace_same.
  - apply occurs_replace_same.
Qed.

(** Both removals together, seen from the right end of the text. *)
Lemma rstrip_replace2 s :
  rstrip (replace DQUOTE EmptyString (replace "*" EmptyString (rstrip s)))
  = rstrip (replace DQUOTE EmptyString (replace "*" EmptyString s)).
Proof.
  rewrite <- (rstrip_replace DQUOTE (replace "*" EmptyString (rstrip s)))
    by reflexivity.
  rewrite (rstrip_replace "*" s) by reflexivity.
  now rewrite rstrip_replace.
Qed.

(** On a text that does not start with whitespace, the script keeps what
    the wording of the specification keeps. *)
Lemma sanitize_title_no_leading_space text :
  lstrip text = text -> sanitize_title text = sanitize_spec text.
Proof.
  intros H. unfold sanitize_title, sanitize_spec, strip.
  rewrite (lstrip_rstrip_fixed text H).
  fold (first_line (rstrip text)). do 2 f_equal.
  rewrite <- rstrip_replace2, rstrip_first_line. apply rstrip_replace2.
Qed.

(** C8, as the script has it. The script first trims the whitespace around
    the whole answer, and only then keeps the first line, removes the
    asterisks and the double quotes, trims again and truncates to 50
    characters. The title has at most 50 characters and holds no asterisk,
    no double quote and no line feed; on an answer that does not start with
    whitespace it is what the specification describes; and the answer of
    the seventh property is turned into [Weekend Trip Plans]. *)
Theorem sanitize_title_trims_first :
  (forall text,
     sanitize_title text = sanitize_spec (strip text)
     /\ String.length (sanitize_title text) <= 50
     /\ occurs "*" (sanitize_title text) = false
     /\ occurs DQUOTE (sanitize_title text) = false
     /\ occurs LF (sanitize_title text) = false
     /\ (lstrip text = text -> sanitize_title text = sanitize_spec text))
  /\ sanitize_title weekend_text = "Weekend Trip Plans".
Proof.
  split; [|reflexivity]. intros text.
  split; [reflexivity|].
  split; [apply length_slice_to|].
  rewrite sanitize_title_eq.
  split; [apply occurs_sanitize_spec; auto|].
  split; [apply occurs_sanitize_spec; auto|].
  split; [apply occurs_sanitize_spec; left; apply occurs_first_line|].
  rewrite <- sanitize_title_eq. apply sanitize_title_no_leading_space.
Qed.

Lemma sanitize_title_trims_first_witness :
  lstrip weekend_text = weekend_text
  /\ sanitize_title weekend_text = sanitize_spec weekend_text.
Proof.
  assert (H : lstrip weekend_text = weekend_text) by reflexivity.
  split; [exact H|].
  destruct (proj1 sanitize_title_trims_first weekend_text)
    as (_ & _ & _ & _ & _ & Hw).
  exact (Hw H).
Defined.

(** C8 fails as it is worded: when the answer starts with an empty line,
    its first line is empty, and so is the title the specification
    describes, while the script answers the text of the second line. *)
Lemma sanitize_first_line_counterexample :
  first_line late_title_text = EmptyString
  /\ sanitize_spec late_title_text = EmptyString
  /\ sanitize_title late_title_text = "Title"
  /\ sanitize_title late_title_text <> sanitize_spec late_title_text.
Proof.
  split; [reflexivity|]. split; [reflexivity|]. split; [reflexivity|].
  discriminate.
Qed.

(** ** The title used when the title model fails *)

(** C9. When title generation fails, the title is [New Chat] for an empty
    prompt and otherwise the first five whitespace-separated words of the
    prompt (none of them empty, none with whitespace in it), joined by
    single spaces and followed by three dots. The submission around it
    goes on: the reply is stored after the user turn, nothing is reported
    as an error, the input buffer is cleared, and a chat that had its
    default title gets the fallback title. In particular the prompt of the
    eighth property gives [How do I bake sourdough...]. *)
Theorem title_fallback :
  (forall be text_content original_prompt e,
     title_generate_content be (title_request text_content original_prompt)
       = Raises e ->
     let title :=
       fst (generate_title_from_summary be text_content original_prompt) in
     (original_prompt = EmptyString -> title = "New Chat")
     /\ (original_prompt <> EmptyString ->
         title = join " " (firstn 5 (split original_prompt)) ++ "..."
         /\ Forall (fun w => w <> EmptyString /\ no_space w)
                   (firstn 5 (split original_prompt))))
  /\ (forall be prompt_text reply_text e s,
        prompt_text <> EmptyString ->
        generate_content be
          (api_history_of
             (get_active_chat_history s ++ [Message user prompt_text]))
          = Returns reply_text ->
        title_generate_content be (title_request reply_text prompt_text)
          = Raises e ->
        let s' := fst (handle_chat_submission be prompt_text s) in
        let tr := snd (handle_chat_submission be prompt_text s) in
        get (chats s') (active_chat s)
          = Some (get_active_chat_history s
                  ++ [Message user prompt_text; Message model reply_text])%list
        /\ (forall msg, ~ In (StError msg) tr)
        /\ user_input s' = EmptyString
        /\ (has_default_title s = true ->
            get (chat_titles s') (active_chat s)
              = Some (join " " (firstn 5 (split prompt_text)) ++ "...")))
  /\ fst (generate_title_from_summary untitled_backend "Hi there"
            "How do I bake sourdough bread at home")
     = "How do I bake sourdough..."
  /\ fst (generate_title_from_summary untitled_backend "Hi there" EmptyString)
     = "New Chat".
Proof.
  split; [|split; [|split; reflexivity]].
  - intros be text_content original_prompt e Hfail title. subst title.
    unfold generate_title_from_summary. rewrite Hfail. cbn [fst].
    unfold fallback_title. split.
    + now intros ->.
    + intros Hp. apply truthy_iff in Hp. rewrite Hp.
      split; [reflexivity|]. apply Forall_firstn, split_words.
  - intros be prompt_text reply_text e s Hp Hgen Hfail s' tr. subst s' tr.
    rewrite handle_chat_submission_eq by now apply truthy_iff.
    cbv zeta. rewrite Hgen. unfold has_default_title.
    unfold generate_title_from_summary. rewrite Hfail.
    destruct (String.eqb _ (active_chat s)); cbn [fst snd].
    + split; [apply submitted_get|].
      split; [intros msg [H|[H|[H|[]]]]; discriminate H|].
      split; [reflexivity|]. intros _.
      cbn [submitted chat_titles]. rewrite get_set_same.
      unfold fallback_title. apply truthy_iff in Hp. now rewrite Hp.
    + split; [apply submitted_get|].
      split; [intros msg [H|[]]; discriminate H|].
      split; [reflexivity | discriminate].
Qed.

Lemma title_fallback_witness :
  get (chat_titles
         (fst (handle_chat_submission untitled_backend
                 "How do I bake sourdough bread at home" init_state)))
      "Chat 1"
  = Some "How do I bake sourdough...".
Proof.
  assert (Hp : "How do I bake sourdough bread at home" <> EmptyString)
    by discriminate.
  destruct (proj1 (proj2 title_fallback) untitled_backend
              "How do I bake sourdough bread at home" "Hi there" "unavailable"
              init_state Hp eq_refl eq_refl) as (_ & _ & _ & H).
  exact (H eq_refl).
Defined.

End Titles.

(* ===================================================================== *)
(** * More on the operations of the store *)
(* ===================================================================== *)

Module StoreOps.
Import PyDict DictFacts GeminiChatBot Props MoreProps.
Import ThreadStore Submission Session.

Lemma get_del_same {V : Type} k (d : dict V) : get (del k d) k = None.
Proof.
  unfold del. induction d as [|[k' v] r IH]; simpl; [reflexivity|].
  destruct (String.eqb_spec k' k) as [->|Hne]; simpl; [assumption|].
  destruct (String.eqb_spec k' k); [contradiction | assumption].
Qed.

Lemma get_none_not_in {V : Type} k (d : dict V) :
  get d k = None <-> ~ In k (keys d).
Proof.
  induction d as [|[k' v] r IH]; simpl; [tauto|].
  destruct (String.eqb_spec k' k) as [->|Hne].
  - split; [discriminate | intros H; exfalso; apply H; now left].
  - rewrite IH. tauto.
Qed.

(** Writing back the value a key already has changes nothing. *)
Lemma set_get_same {V : Type} k (v : V) d : get d k = Some v -> set k v d = d.
Proof.
  induction d as [|[k' v'] r IH]; simpl; [discriminate|].
  destruct (String.eqb_spec k' k) as [->|Hne].
  - now intros [= ->].
  - intros H. now rewrite IH.
Qed.

(** X1. A click on the new-chat button, from a reachable session state:
    the counter goes up by one; the chat minted from it is a new key, put
    last in both dictionaries, with the greeting as its whole history and
    its identifier as title; it becomes the active chat; no chat that was
    there is touched, and nothing is asked of the API. *)
Theorem new_chat_creates be s :
  reachable s ->
  let new_id := chat_name (chat_counter s + 1) in
  let s' := fst (script_run be NewChatButton s) in
  snd (script_run be NewChatButton s) = []
  /\ chat_counter s' = (chat_counter s + 1)%Z
  /\ active_chat s' = new_id
  /\ ~ In new_id (keys (chats s))
  /\ keys (chats s') = (keys (chats s) ++ [new_id])%list
  /\ keys (chat_titles s') = (keys (chat_titles s) ++ [new_id])%list
  /\ get (chats s') new_id = Some [greeting]
  /\ get (chat_titles s') new_id = Some new_id
  /\ (forall k, In k (keys (chats s)) ->
        get (chats s') k = get (chats s) k
        /\ get (chat_titles s') k = get (chat_titles s) k).
Proof.
  intros Hr new_id s'. apply reachable_well_formed in Hr as [Hok _].
  pose proof (next_name_fresh s Hok) as Hfresh. subst s'.
  change (script_run be NewChatButton s) with (new_chat s, @nil effect).
  cbn [fst snd]. rewrite new_chat_eq. cbv zeta. fold new_id.
  cbn [chats chat_titles active_chat chat_counter].
  repeat split; try reflexivity.
  - exact Hfresh.
  - now apply keys_set_absent.
  - apply keys_set_absent. now rewrite <- (ok_same_keys s Hok).
  - apply get_set_same.
  - apply get_set_same.
  - apply get_set_other. intros ->. contradiction.
  - apply get_set_other. intros ->. contradiction.
Qed.

Lemma new_chat_creates_witness :
  reachable init_state
  /\ keys (chats (fst (script_run friendly_backend NewChatButton init_state)))
     = ["Chat 1"; "Chat 2"].
Proof.
  assert (Hr : reachable init_state) by (exists []; reflexivity).
  split; [exact Hr|].
  destruct (new_chat_creates friendly_backend init_state Hr)
    as (_ & _ & _ & _ & H & _).
  exact H.
Defined.

(** X2. Deleting a chat that is in the store and is not the active one
    removes that chat, with its title, and nothing else: the active chat
    and the counter stay, the other chats keep their place, their history
    and their title. *)
Theorem delete_other_chat chat_id s :
  In chat_id (keys (chats s)) ->
  chat_id <> active_chat s ->
  let s' := fst (delete_chat chat_id s) in
  active_chat s' = active_chat s
  /\ chat_counter s' = chat_counter s
  /\ user_input s' = user_input s
  /\ ~ In chat_id (keys (chats s'))
  /\ ~ In chat_id (keys (chat_titles s'))
  /\ keys (chats s')
     = filter (fun k => negb (String.eqb k chat_id)) (keys (chats s))
  /\ (forall k, k <> chat_id ->
        get (chats s') k = get (chats s) k
        /\ get (chat_titles s') k = get (chat_titles s) k).
Proof.
  intros Hin Hne s'. subst s'. rewrite delete_chat_eq.
  apply mem_true_iff in Hin as Hmem. rewrite Hmem. cbv zeta.
  apply String.eqb_neq in Hne as Hb. rewrite Hb.
  cbn [fst chats chat_titles active_chat chat_counter user_input].
  repeat split; try reflexivity.
  - rewrite in_keys_del. tauto.
  - destruct (mem chat_id (chat_titles s)) eqn:Hmt.
    + rewrite in_keys_del. tauto.
    + now apply mem_false_iff.
  - apply keys_del.
  - now apply get_del_other.
  - destruct (mem chat_id (chat_titles s)); [now apply get_del_other | reflexivity].
Qed.

Lemma delete_other_chat_witness :
  keys (chats (fst (delete_chat "Chat 1" three_chats))) = ["Chat 2"; "Chat 3"]
  /\ active_chat (fst (delete_chat "Chat 1" three_chats)) = "Chat 2".
Proof.
  assert (Hin : In "Chat 1" (keys (chats three_chats))) by (simpl; tauto).
  assert (Hne : "Chat 1" <> active_chat three_chats) by discriminate.
  destruct (delete_other_chat "Chat 1" three_chats Hin Hne)
    as (Ha & _ & _ & _ & _ & Hk & _).
  split; [exact Hk | exact Ha].
Defined.

(** The first key that is not [c], in a list that holds one. *)
Lemma first_other (c : string) (l : list string) :
  (exists k, In k l /\ k <> c) ->
  exists l1 x l2,
    l = (l1 ++ x :: l2)%list
    /\ Forall (fun y => y = c) l1
    /\ x <> c
    /\ filter (fun k => negb (String.eqb k c)) l
       = x :: filter (fun k => negb (String.eqb k c)) l2.
Proof.
  induction l as [|a r IH]; intros (k & Hk & Hne); [destruct Hk|].
  destruct (String.eqb_spec a c) as [->|Hac].
  - destruct IH as (l1 & x & l2 & -> & Hall & Hx & Hf).
    { exists k. destruct Hk as [<-|Hk]; [contradiction | now split]. }
    exists (c :: l1), x, l2. simpl. rewrite String.eqb_refl. simpl.
    repeat split; [now constructor | assumption | assumption].
  - exists [], a, r. simpl. apply String.eqb_neq in Hac as Hb. rewrite Hb.
    simpl. repeat split; [constructor | assumption].
Qed.

(** X3. Deleting the active chat while another chat is left makes the
    oldest remaining chat (the first remaining key in insertion order) the
    active one; the counter stays, and the remaining chats keep their
    place, their history and their title. *)
Theorem delete_active_chat chat_id s :
  active_chat s = chat_id ->
  In chat_id (keys (chats s)) ->
  (exists k, In k (keys (chats s)) /\ k <> chat_id) ->
  let s' := fst (delete_chat chat_id s) in
  (exists l1 l2,
     keys (chats s) = (l1 ++ active_chat s' :: l2)%list
     /\ Forall (fun y => y = chat_id) l1)
  /\ active_chat s' <> chat_id
  /\ In (active_chat s') (keys (chats s'))
  /\ chat_counter s' = chat_counter s
  /\ keys (chats s')
     = filter (fun k => negb (String.eqb k chat_id)) (keys (chats s))
  /\ (forall k, k <> chat_id ->
        get (chats s') k = get (chats s) k
        /\ get (chat_titles s') k = get (chat_titles s) k).
Proof.
  intros Hact Hin Hother s'. subst s'. rewrite delete_chat_eq.
  apply mem_true_iff in Hin as Hmem. rewrite Hmem, Hact, String.eqb_refl.
  cbv zeta.
  destruct (first_other chat_id (keys (chats s)) Hother)
    as (l1 & x & l2 & Hkeys & Hall & Hx & Hf).
  assert (Hne : non_empty (del chat_id (chats s)) = true).
  { apply (Titles.in_keys_non_empty x). rewrite keys_del, Hf. now left. }
  rewrite Hne. cbn [fst chats chat_titles active_chat chat_counter].
  rewrite keys_del, Hf. cbn [hd].
  repeat split; try reflexivity.
  - now exists l1, l2.
  - exact Hx.
  - now left.
  - now apply get_del_other.
  - destruct (mem chat_id (chat_titles s)); [now apply get_del_other | reflexivity].
Qed.

Lemma delete_active_chat_witness :
  active_chat (fst (delete_chat "Chat 2" three_chats)) <> "Chat 2"
  /\ keys (chats (fst (delete_chat "Chat 2" three_chats))) = ["Chat 1"; "Chat 3"].
Proof.
  assert (Hin : In "Chat 2" (keys (chats three_chats))) by (simpl; tauto).
  assert (Hother : exists k, In k (keys (chats three_chats)) /\ k <> "Chat 2").
  { exists "Chat 1". split; [simpl; tauto | discriminate]. }
  destruct (delete_active_chat "Chat 2" three_chats eq_refl Hin Hother)
    as (_ & Hne & _ & _ & Hk & _).
  split; [exact Hne | exact Hk].
Defined.

(** X4. From a reachable session state with a single chat, the click on
    the delete button of that chat gives back exactly the session state of
    a fresh session, and asks nothing of the API. *)
Theorem delete_sole_chat_restarts be chat_id s :
  reachable s ->
  keys (chats s) = [chat_id] ->
  script_run be (DeleteButton chat_id) s = (initialize None, []).
Proof.
  intros Hr Hkeys. apply reachable_well_formed in Hr as [Hok Hinput].
  assert (Hin : In chat_id (keys (chats s))) by (rewrite Hkeys; now left).
  assert (Hact : active_chat s = chat_id).
  { pose proof (ok_active s Hok) as Ha. rewrite Hkeys in Ha.
    destruct Ha as [Ha|[]]. now symmetry. }
  assert (Hrun : script_run be (DeleteButton chat_id) s
                 = (fst (delete_chat chat_id s), [])).
  { destruct (script_run_cases be (DeleteButton chat_id) s)
      as [[Hev _]|[(k & _ & Hev & _)|[(k & _ & Hev & Heq)|(_ & Hnot & _)]]];
      try discriminate Hev.
    - injection Hev as <-. exact Heq.
    - exfalso. now apply (Hnot chat_id). }
  rewrite Hrun. f_equal.
  destruct (delete_chat_sole chat_id s Hkeys Hact) as (titles & -> & Htitles).
  assert (Hnil : titles = []).
  { destruct titles as [|[k v] r]; [reflexivity|]. exfalso.
    destruct (Htitles k) as [Hk Hne]; [now left|].
    rewrite <- (ok_same_keys s Hok), Hkeys in Hk.
    destruct Hk as [Hk|[]]. now apply Hne. }
  rewrite Hnil, Hinput. reflexivity.
Qed.

Lemma delete_sole_chat_restarts_witness :
  reachable (final two_then_one)
  /\ fst (script_run friendly_backend (DeleteButton "Chat 2") (final two_then_one))
     = init_state.
Proof.
  assert (Hr : reachable (final two_then_one)) by (exists two_then_one; reflexivity).
  split; [exact Hr|].
  exact (f_equal fst (delete_sole_chat_restarts friendly_backend "Chat 2"
                        (final two_then_one) Hr eq_refl)).
Defined.

Lemma sidebar_loop_select chat_id ids s :
  In chat_id ids ->
  sidebar_loop (SelectButton chat_id) ids s = (with_active_chat s chat_id, Rerun).
Proof.
  induction ids as [|k r IH]; intros Hin; [destruct Hin|].
  cbn [sidebar_loop select_clicked delete_clicked].
  destruct (String.eqb_spec chat_id k) as [->|Hne]; [reflexivity|].
  destruct Hin as [->|Hin]; [contradiction | now apply IH].
Qed.

Lemma sidebar_loop_select_absent chat_id ids s :
  ~ In chat_id ids ->
  sidebar_loop (SelectButton chat_id) ids s = (s, Continue).
Proof.
  induction ids as [|k r IH]; intros Hnin; [reflexivity|].
  cbn [sidebar_loop select_clicked delete_clicked].
  destruct (String.eqb_spec chat_id k) as [->|Hne].
  - exfalso. apply Hnin. now left.
  - apply IH. intros Hin. apply Hnin. now right.
Qed.

(** X5. A click on the select button of a chat of the store changes the
    active chat and nothing else, and asks nothing of the API: the history
    shown next is the one stored for that chat. *)
Theorem select_switches be chat_id s :
  In chat_id (keys (chats s)) ->
  let s' := fst (script_run be (SelectButton chat_id) s) in
  snd (script_run be (SelectButton chat_id) s) = []
  /\ active_chat s' = chat_id
  /\ chats s' = chats s
  /\ chat_titles s' = chat_titles s
  /\ chat_counter s' = chat_counter s
  /\ user_input s' = user_input s
  /\ get (chats s) chat_id = Some (get_active_chat_history s').
Proof.
  intros Hin s'. subst s'.
  assert (Hrun : script_run be (SelectButton chat_id) s
                 = (with_active_chat s chat_id, [])).
  { unfold script_run. cbn [new_chat_clicked]. cbv zeta.
    rewrite sidebar_loop_select by now apply in_sorted_reverse.
    reflexivity. }
  rewrite Hrun. cbn [fst snd]. repeat split.
  unfold get_active_chat_history, get_default.
  cbn [chats active_chat with_active_chat].
  apply mem_true_iff in Hin. destruct (get (chats s) chat_id) eqn:Hg;
    [reflexivity|].
  apply get_none_not_in in Hg. apply mem_true_iff in Hin. contradiction.
Qed.

Lemma select_switches_witness :
  active_chat (fst (script_run friendly_backend (SelectButton "Chat 3") three_chats))
  = "Chat 3".
Proof.
  assert (Hin : In "Chat 3" (keys (chats three_chats))) by (simpl; tauto).
  destruct (select_switches friendly_backend "Chat 3" three_chats Hin)
    as (_ & H & _).
  exact H.
Defined.

(** X6. Saving and reading a history: after [save_chat_history] under the
    active chat, [get_active_chat_history] answers the saved messages;
    saving under another chat leaves the active history as it was; saving
    back what is stored changes nothing; and when the active chat is not a
    key of [chats] the history read is empty. *)
Theorem save_then_get chat_id messages s :
  get_active_chat_history (save_chat_history chat_id messages s)
    = (if String.eqb chat_id (active_chat s)
       then messages else get_active_chat_history s)
  /\ (get (chats s) chat_id = Some messages ->
      save_chat_history chat_id messages s = s)
  /\ (~ In (active_chat s) (keys (chats s)) -> get_active_chat_history s = []).
Proof.
  unfold get_active_chat_history, save_chat_history, get_default.
  cbn [chats active_chat with_chats]. split; [|split].
  - destruct (String.eqb_spec chat_id (active_chat s)) as [->|Hne].
    + now rewrite get_set_same.
    + rewrite get_set_other by congruence. reflexivity.
  - intros Hg. rewrite (set_get_same _ _ _ Hg). now destruct s.
  - intros Hnin. apply get_none_not_in in Hnin. now rewrite Hnin.
Qed.

Lemma save_then_get_witness :
  save_chat_history "Chat 1" [greeting] init_state = init_state.
Proof.
  exact (proj1 (proj2 (save_then_get "Chat 1" [greeting] init_state)) eq_refl).
Defined.

(** Identifiers minted, once each, from counter values between 1 and [c]
    are at most [c]. *)
Lemma minted_names_bound (c : Z) (l : list string) :
  (0 <= c)%Z ->
  NoDup l ->
  (forall k, In k l -> exists n, (1 <= n <= c)%Z /\ k = chat_name n) ->
  (Z.of_nat (length l) <= c)%Z.
Proof.
  intros Hc Hnd Hnames.
  assert (Hns : exists ns, l = map chat_name ns
                           /\ Forall (fun n => (1 <= n <= c)%Z) ns).
  { clear Hnd. induction l as [|k r IH]; [now exists []|].
    destruct (Hnames k) as (n & Hn & ->); [now left|].
    destruct IH as (ns & -> & Hall); [intros k Hk; apply Hnames; now right|].
    exists (n :: ns). split; [reflexivity | now constructor]. }
  destruct Hns as (ns & -> & Hall). rewrite length_map.
  apply NoDup_map_inv in Hnd.
  assert (Hincl : incl ns (map Z.of_nat (seq 1 (Z.to_nat c)))).
  { intros n Hn. rewrite Forall_forall in Hall. specialize (Hall n Hn).
    cbv beta in Hall.
    apply in_map_iff. exists (Z.to_nat n). split; [lia|].
    apply in_seq. lia. }
  pose proof (NoDup_incl_length Hnd Hincl) as Hlen.
  rewrite length_map, length_seq in Hlen. lia.
Qed.

(** X7. What every reachable session state satisfies, whatever passes led
    to it (creations, selections, deletions and submissions alike):
    [chats] and [chat_titles] list the same keys in the same order, no key
    twice; there is at least one chat; every identifier is [Chat n] for
    some [n] between 1 and the counter, so that the counter is at least the
    number of chats; and the input buffer is empty, no prompt being left
    to process. *)
Theorem reachable_invariant s :
  reachable s ->
  keys (chats s) = keys (chat_titles s)
  /\ NoDup (keys (chats s))
  /\ chats s <> []
  /\ (forall k, In k (keys (chats s)) ->
        exists n, (1 <= n <= chat_counter s)%Z /\ k = chat_name n)
  /\ (Z.of_nat (length (keys (chats s))) <= chat_counter s)%Z
  /\ user_input s = EmptyString.
Proof.
  intros Hr. apply reachable_well_formed in Hr as [[H1 H2 H3 H4 H5] Hin].
  repeat split; try assumption.
  - intros Hnil. rewrite Hnil in H3. destruct H3.
  - apply minted_names_bound; [lia | assumption | assumption].
Qed.

Lemma reachable_invariant_witness :
  reachable (final two_then_one)
  /\ (Z.of_nat (length (keys (chats (final two_then_one))))
      <= chat_counter (final two_then_one))%Z.
Proof.
  assert (Hr : reachable (final two_then_one)) by (exists two_then_one; reflexivity).
  split; [exact Hr|].
  destruct (reachable_invariant (final two_then_one) Hr) as (_ & _ & _ & _ & H & _).
  exact H.
Defined.

End StoreOps.

(* ===================================================================== *)
(** * The histories of the chats *)
(* ===================================================================== *)

Module Histories.
Import PyDict DictFacts GeminiChatBot View Props MoreProps.
Import ThreadStore Submission Session StoreOps.

Lemma history_ok_greeting : history_ok [greeting].
Proof. now exists []. Qed.

Lemma history_ok_app h p r :
  history_ok h -> history_ok (h ++ [Message user p; Message model r]).
Proof.
  intros [xs ->]. exists (xs ++ [(p, r)])%list.
  rewrite flat_map_app. reflexivity.
Qed.

Lemma histories_ok_set k h c :
  history_ok h ->
  (forall k' h', k' <> k -> get c k' = Some h' -> history_ok h') ->
  forall k' h', get (set k h c) k' = Some h' -> history_ok h'.
Proof.
  intros Hh Hc k' h'. destruct (String.eqb_spec k' k) as [->|Hne].
  - rewrite get_set_same. now intros [= <-].
  - rewrite get_set_other by assumption. now apply Hc.
Qed.

Lemma histories_ok_del k c :
  (forall k' h', get c k' = Some h' -> history_ok h') ->
  forall k' h', get (del k c) k' = Some h' -> history_ok h'.
Proof.
  intros Hc k' h'. destruct (String.eqb_spec k' k) as [->|Hne].
  - now rewrite get_del_same.
  - rewrite get_del_other by assumption. apply Hc.
Qed.

(** The history read for an active chat that is in the store. *)
Lemma active_history_stored s :
  In (active_chat s) (keys (chats s)) ->
  get (chats s) (active_chat s) = Some (get_active_chat_history s).
Proof.
  intros Hin. unfold get_active_chat_history, get_default.
  destruct (get (chats s) (active_chat s)) eqn:Hg; [reflexivity|].
  apply get_none_not_in in Hg. contradiction.
Qed.

Lemma submitted_histories_ok s p r titles :
  In (active_chat s) (keys (chats s)) ->
  histories_ok s ->
  histories_ok (submitted s (get_active_chat_history s
                             ++ [Message user p; Message model r]) titles).
Proof.
  intros Hin Hs. unfold histories_ok, submitted. cbn [chats].
  apply histories_ok_set.
  - apply history_ok_app. apply (Hs (active_chat s)).
    now apply active_history_stored.
  - intros k' h' _. apply Hs.
Qed.

Lemma script_run_histories_ok be ev s :
  well_formed s -> histories_ok s ->
  histories_ok (fst (script_run be ev s)).
Proof.
  intros [Hok Hinput] Hs.
  pass_cases be ev s k Hk Hevk.
  - rewrite new_chat_eq. cbv zeta. unfold histories_ok. cbn [chats].
    apply histories_ok_set; [apply history_ok_greeting|].
    intros k' h' _. apply Hs.
  - exact Hs.
  - rewrite delete_chat_eq. apply mem_true_iff in Hk as Hmem. rewrite Hmem.
    cbv zeta. unfold histories_ok.
    destruct (String.eqb k (active_chat s));
      [destruct (non_empty (del k (chats s)))|]; cbn [fst chats].
    + now apply histories_ok_del.
    + apply histories_ok_set; [apply history_ok_greeting|].
      intros k' h' _. now apply histories_ok_del.
    + now apply histories_ok_del.
  - destruct (PyStr.truthy (pending ev s)) eqn:Hp; [|exact Hs].
    rewrite handle_chat_submission_eq by assumption. cbv zeta.
    pose proof (ok_active s Hok) as Hact.
    destruct (generate_content be _) as [reply|e];
      [destruct (String.eqb _ (active_chat (with_user_input s (pending ev s))))|];
      cbn [fst];
      apply (submitted_histories_ok (with_user_input s (pending ev s)));
      assumption.
Qed.

Lemma run_histories_ok passes :
  forall s, well_formed s -> histories_ok s ->
            histories_ok (fst (run passes s)).
Proof.
  induction passes as [|[be ev] rest IH]; intros s Hwf Hs; simpl; [assumption|].
  pose proof (script_run_ok be ev s Hwf) as Hwf1.
  pose proof (script_run_histories_ok be ev s Hwf Hs) as Hs1.
  destruct (script_run be ev s) as [s1 tr1]. cbn [fst] in *.
  specialize (IH s1 Hwf1 Hs1). now destruct (run rest s1).
Qed.

Lemma reachable_histories_ok s : reachable s -> histories_ok s.
Proof.
  intros [passes ->]. apply run_histories_ok.
  - split; [apply init_store_ok | reflexivity].
  - intros k h Hg. unfold initialize, init_state in Hg. cbn [chats get] in Hg.
    destruct (String.eqb "Chat 1" k); [|discriminate Hg].
    injection Hg as <-. apply history_ok_greeting.
Qed.

(** X8. In every reachable session state, the history of every chat is
    the greeting of the model followed by complete exchanges, each a user
    turn and then one model turn (the reply, or the report of the failure):
    no history is empty, none starts or ends with a user turn, and no two
    turns of the same role follow each other after the greeting. *)
Theorem histories_are_exchanges s k h :
  reachable s ->
  get (chats s) k = Some h ->
  exists exchanges : list (string * string),
    h = Message model "Hello! How can I assist you today?"
        :: flat_map (fun x => [Message user (fst x); Message model (snd x)])
                    exchanges.
Proof.
  intros Hr Hg. exact (reachable_histories_ok s Hr k h Hg).
Qed.

Lemma histories_are_exchanges_witness :
  exists exchanges : list (string * string),
    [greeting; Message user "Hello"; Message model "Hi there"]
    = greeting :: flat_map exchange exchanges.
Proof.
  assert (Hr : reachable (final [(friendly_backend, ChatInput "Hello")]))
    by (exists [(friendly_backend, ChatInput "Hello")]; reflexivity).
  exact (histories_are_exchanges (final [(friendly_backend, ChatInput "Hello")])
           "Chat 1" _ Hr eq_refl).
Defined.

(** One pass only ever adds turns at the end of the history of a chat it
    does not delete. *)
Lemma script_run_extends be ev s k h :
  well_formed s ->
  get (chats s) k = Some h ->
  ev <> DeleteButton k ->
  exists suffix, get (chats (fst (script_run be ev s))) k = Some (h ++ suffix)%list.
Proof.
  intros [Hok Hinput] Hg Hev.
  assert (Hin : In k (keys (chats s))) by now apply get_some_in_keys in Hg.
  pass_cases be ev s k0 Hk0 Hev0.
  - exists []. rewrite app_nil_r, new_chat_eq. cbn [chats].
    rewrite get_set_other; [assumption|].
    intros ->. now apply (next_name_fresh s Hok).
  - exists []. now rewrite app_nil_r.
  - exists []. rewrite app_nil_r.
    assert (Hne : k <> k0) by (intros <-; now apply Hev).
    rewrite delete_chat_eq. apply mem_true_iff in Hk0 as Hmem. rewrite Hmem.
    cbv zeta.
    assert (Htr : non_empty (del k0 (chats s)) = true).
    { apply (Titles.in_keys_non_empty k). apply in_keys_del. now split. }
    rewrite Htr. destruct (String.eqb k0 (active_chat s)); cbn [fst chats];
      now rewrite get_del_other.
  - destruct (PyStr.truthy (pending ev s)) eqn:Hp;
      [|exists []; now rewrite app_nil_r].
    rewrite handle_chat_submission_eq by assumption. cbv zeta.
    assert (Hh : k = active_chat s ->
                 get_active_chat_history (with_user_input s (pending ev s)) = h).
    { intros Heq. pose proof (active_history_stored s) as Hst.
      rewrite <- Heq in Hst at 1 2. specialize (Hst Hin).
      rewrite Hg in Hst. injection Hst as Hst. subst k. now symmetry. }
    assert (Hsub : forall hnew titles suffix,
               (k = active_chat s -> hnew = (h ++ suffix)%list) ->
               exists suffix',
                 get (chats (submitted (with_user_input s (pending ev s))
                                       hnew titles)) k
                 = Some (h ++ suffix')%list).
    { intros hnew titles suffix Hnew.
      destruct (String.eqb_spec k (active_chat s)) as [Heq|Hne].
      - exists suffix. rewrite (Hnew Heq). subst k.
        exact (submitted_get (with_user_input s (pending ev s)) _ _).
      - exists []. rewrite app_nil_r.
        rewrite (submitted_get_other (with_user_input s (pending ev s)))
          by assumption.
        exact Hg. }
    destruct (generate_content be _) as [reply|e];
      [destruct (String.eqb _ (active_chat (with_user_input s (pending ev s))))|];
      cbn [fst]; eapply Hsub; intros Heq; rewrite (Hh Heq); reflexivity.
Qed.

(** X9. Histories only grow at the end: from a reachable session state,
    whatever passes follow, as long as none deletes the chat, what the chat
    holds afterwards is its former history followed by further turns; no
    turn is dropped, changed or reordered. *)
Theorem history_append_only passes s k h :
  reachable s ->
  get (chats s) k = Some h ->
  Forall (fun p : pass => snd p <> DeleteButton k) passes ->
  exists suffix, get (chats (fst (run passes s))) k = Some (h ++ suffix)%list.
Proof.
  intros Hr Hg Hall. apply reachable_well_formed in Hr.
  revert s h Hr Hg. induction Hall as [|[be ev] rest Hev _ IH];
    intros s h Hwf Hg; simpl.
  - exists []. now rewrite app_nil_r.
  - destruct (script_run_extends be ev s k h Hwf Hg Hev) as [sfx1 H1].
    pose proof (script_run_ok be ev s Hwf) as Hwf1.
    destruct (script_run be ev s) as [s1 tr1]. cbn [fst snd] in *.
    destruct (IH s1 _ Hwf1 H1) as [sfx2 H2].
    destruct (run rest s1) as [s2 tr2]. cbn [fst] in *.
    exists (sfx1 ++ sfx2)%list. now rewrite app_assoc.
Qed.

Lemma history_append_only_witness :
  exists suffix,
    get (chats (fst (run [(friendly_backend, ChatInput "Hello");
                          (friendly_backend, NewChatButton);
                          (failing_backend, ChatInput "Anyone?")]
                         init_state)))
        "Chat 1"
    = Some ([greeting] ++ suffix)%list.
Proof.
  assert (Hr : reachable init_state) by (exists []; reflexivity).
  refine (history_append_only _ init_state "Chat 1" [greeting] Hr eq_refl _).
  repeat constructor; discriminate.
Defined.

Lemma map_flat_map {A B C : Type} (f : B -> C) (g : A -> list B) (l : list A) :
  map f (flat_map g l) = flat_map (fun x => map f (g x)) l.
Proof.
  induction l as [|a r IH]; simpl; [reflexivity|].
  now rewrite map_app, IH.
Qed.

(** X10. What the main container shows in a reachable session state: the
    greeting, drawn as an assistant message, followed by the exchanges of
    the active chat in order, each drawn as a user message and then an
    assistant message. *)
Theorem displayed_conversation s :
  reachable s ->
  exists exchanges : list (string * string),
    get (chats s) (active_chat s)
      = Some (greeting :: flat_map exchange exchanges)
    /\ displayed s
       = ("assistant", "Hello! How can I assist you today?")
         :: flat_map (fun x => [("user", fst x); ("assistant", snd x)])
                     exchanges.
Proof.
  intros Hr. pose proof (reachable_well_formed s Hr) as [Hok _].
  pose proof (active_history_stored s (ok_active s Hok)) as Hst.
  destruct (reachable_histories_ok s Hr _ _ Hst) as [xs Hxs].
  exists xs. split; [now rewrite Hst, Hxs|].
  unfold displayed. rewrite Hxs. cbn [map]. f_equal.
  now rewrite map_flat_map.
Qed.

Lemma displayed_conversation_witness :
  reachable (final [(friendly_backend, ChatInput "Hello")])
  /\ exists exchanges : list (string * string),
       displayed (final [(friendly_backend, ChatInput "Hello")])
       = ("assistant", "Hello! How can I assist you today?")
         :: flat_map (fun x => [("user", fst x); ("assistant", snd x)])
                     exchanges.
Proof.
  assert (Hr : reachable (final [(friendly_backend, ChatInput "Hello")]))
    by (exists [(friendly_backend, ChatInput "Hello")]; reflexivity).
  split; [exact Hr|].
  destruct (displayed_conversation _ Hr) as (xs & _ & H).
  now exists xs.
Defined.

End Histories.

(* ===================================================================== *)
(** * The calls of the API *)
(* ===================================================================== *)

Module Calls.
Import PyDict DictFacts GeminiChatBot View Props MoreProps.
Import ThreadStore Submission Session StoreOps Histories.

Lemma sidebar_loop_no_click ids s :
  sidebar_loop NoInteraction ids s = (s, Continue).
Proof. induction ids as [|k r IH]; [reflexivity | exact IH]. Qed.

(** X11. Only a submitted prompt reaches the API. From a reachable session
    state, a pass whose chat input is empty (a click on any button, or a
    rerun without interaction) has no effect outside the session state: no
    call of either model, no error, no warning; and the pass of a rerun
    leaves the session state as it is, so that no prompt is handled
    twice. The handler itself does nothing on an empty prompt. *)
Theorem no_prompt_no_call be ev s :
  reachable s ->
  chat_input ev = EmptyString ->
  snd (script_run be ev s) = []
  /\ (ev = NoInteraction -> fst (script_run be ev s) = s)
  /\ handle_chat_submission be EmptyString s = (s, []).
Proof.
  intros Hr Hci. apply reachable_well_formed in Hr as [Hok Hinput].
  split; [|split; [|reflexivity]].
  - pass_cases be ev s k Hk Hevk; try reflexivity.
    unfold pending. rewrite Hci, Hinput. reflexivity.
  - intros ->. unfold script_run. cbn [new_chat_clicked]. cbv zeta.
    rewrite sidebar_loop_no_click. cbn [chat_input PyStr.truthy].
    rewrite Hinput. reflexivity.
Qed.

Lemma no_prompt_no_call_witness :
  reachable (final [(friendly_backend, ChatInput "Hello")])
  /\ script_run failing_backend NoInteraction
       (final [(friendly_backend, ChatInput "Hello")])
     = (final [(friendly_backend, ChatInput "Hello")], []).
Proof.
  assert (Hr : reachable (final [(friendly_backend, ChatInput "Hello")]))
    by (exists [(friendly_backend, ChatInput "Hello")]; reflexivity).
  split; [exact Hr|].
  destruct (no_prompt_no_call failing_backend NoInteraction _ Hr eq_refl)
    as (Htr & Hst & _).
  rewrite (surjective_pairing (script_run failing_backend NoInteraction _)).
  now rewrite Htr, (Hst eq_refl).
Defined.

Lemma model_calls_generate be text_content original_prompt :
  model_calls (snd (generate_title_from_summary be text_content original_prompt))
  = 0.
Proof.
  unfold generate_title_from_summary.
  destruct (title_generate_content be _); reflexivity.
Qed.

Lemma api_history_of_app h1 h2 :
  api_history_of (h1 ++ h2) = (api_history_of h1 ++ api_history_of h2)%list.
Proof. apply map_app. Qed.

(** The first thing a submission with a prompt does is to call the chat
    model on the stored history and the prompt. *)
Lemma first_effect_is_model_call be prompt_text s :
  prompt_text <> EmptyString ->
  hd_error (snd (handle_chat_submission be prompt_text s))
  = Some (CallModel
            (api_history_of (get_active_chat_history s)
             ++ [ApiMessage user [prompt_text]])).
Proof.
  intros Hp. rewrite handle_chat_submission_eq by now apply truthy_iff.
  cbv zeta. rewrite api_history_of_app.
  destruct (generate_content be _) as [reply|e];
    [destruct (String.eqb _ (active_chat s))|]; reflexivity.
Qed.

(** X12. A submission with a prompt calls the chat model exactly once,
    before anything else, and sends it the whole history stored for the
    active chat, turn by turn with its role and its text, followed by the
    new prompt as a user turn. *)
Theorem one_model_call be prompt_text s h :
  prompt_text <> EmptyString ->
  get (chats s) (active_chat s) = Some h ->
  let tr := snd (handle_chat_submission be prompt_text s) in
  model_calls tr = 1
  /\ hd_error tr
     = Some (CallModel
               (map (fun msg => ApiMessage (role msg) [content msg]) h
                ++ [ApiMessage user [prompt_text]])).
Proof.
  intros Hp Hg tr. subst tr.
  split.
  - rewrite handle_chat_submission_eq by now apply truthy_iff.
    cbv zeta.
    destruct (generate_content be _) as [reply|e];
      [destruct (String.eqb _ (active_chat s))|]; cbn [snd];
      try reflexivity.
    unfold model_calls. cbn [filter length].
    change (length (filter _ ?l)) with (model_calls l).
    now rewrite model_calls_generate.
  - rewrite (first_effect_is_model_call be prompt_text s Hp).
    now rewrite (stored_history_read s h Hg).
Qed.

Lemma one_model_call_witness :
  hd_error (snd (handle_chat_submission friendly_backend "And then?"
                   (final busy_session)))
  = Some (CallModel [ApiMessage model ["Hello! How can I assist you today?"];
                     ApiMessage user ["Hello"];
                     ApiMessage model ["Hi there"];
                     ApiMessage user ["And then?"]]).
Proof.
  assert (Hp : "And then?" <> EmptyString) by discriminate.
  assert (Hg : get (chats (final busy_session)) (active_chat (final busy_session))
               = Some [greeting; Message user "Hello"; Message model "Hi there"])
    by reflexivity.
  exact (proj2 (one_model_call friendly_backend "And then?"
                  (final busy_session) _ Hp Hg)).
Defined.

(** The history read after a submission is the one it stored. *)
Lemma submitted_history s h titles :
  get_active_chat_history (submitted s h titles) = h.
Proof.
  unfold get_active_chat_history, get_default, submitted.
  cbn [chats active_chat]. now rewrite get_set_same.
Qed.

(** X13. The report of a failed completion stays in the conversation: the
    next submission in that chat sends the chat model the former history,
    the prompt that failed, the error text as a model turn, and then the
    new prompt. *)
Theorem error_turn_is_resent be1 be2 prompt1 prompt2 e s :
  prompt1 <> EmptyString ->
  prompt2 <> EmptyString ->
  generate_content be1
    (api_history_of (get_active_chat_history s ++ [Message user prompt1]))
    = Raises e ->
  let s1 := fst (handle_chat_submission be1 prompt1 s) in
  hd_error (snd (handle_chat_submission be2 prompt2 s1))
  = Some (CallModel
            (api_history_of (get_active_chat_history s)
             ++ [ApiMessage user [prompt1];
                 ApiMessage model ["Error: An error occurred: " ++ e];
                 ApiMessage user [prompt2]])).
Proof.
  intros Hp1 Hp2 Hgen s1.
  rewrite (first_effect_is_model_call be2 prompt2 s1 Hp2). subst s1.
  rewrite handle_chat_submission_eq by now apply truthy_iff.
  cbv zeta. rewrite Hgen. cbn [fst]. rewrite submitted_history.
  rewrite api_history_of_app, <- app_assoc. reflexivity.
Qed.

Lemma error_turn_is_resent_witness :
  hd_error
    (snd (handle_chat_submission friendly_backend "Again"
            (fst (handle_chat_submission failing_backend "Hello" init_state))))
  = Some (CallModel
            [ApiMessage model ["Hello! How can I assist you today?"];
             ApiMessage user ["Hello"];
             ApiMessage model ["Error: An error occurred: quota exceeded"];
             ApiMessage user ["Again"]]).
Proof.
  assert (Hp1 : "Hello" <> EmptyString) by discriminate.
  assert (Hp2 : "Again" <> EmptyString) by discriminate.
  exact (error_turn_is_resent failing_backend friendly_backend "Hello" "Again"
           "quota exceeded" init_state Hp1 Hp2 eq_refl).
Defined.

(** X14. A submission neither creates nor deletes a chat: when the active
    chat is in the store, the keys of [chats] and of [chat_titles], the
    active chat and the counter are as before, and the title of every
    other chat is untouched. *)
Theorem submission_frame be prompt_text s :
  In (active_chat s) (keys (chats s)) ->
  In (active_chat s) (keys (chat_titles s)) ->
  let s' := fst (handle_chat_submission be prompt_text s) in
  keys (chats s') = keys (chats s)
  /\ keys (chat_titles s') = keys (chat_titles s)
  /\ active_chat s' = active_chat s
  /\ chat_counter s' = chat_counter s
  /\ (forall k, k <> active_chat s ->
        get (chat_titles s') k = get (chat_titles s) k).
Proof.
  intros Hin Hint s'. subst s'.
  destruct (PyStr.truthy prompt_text) eqn:Hp.
  - rewrite handle_chat_submission_eq by assumption. cbv zeta.
    destruct (generate_content be _) as [reply|e];
      [destruct (String.eqb _ (active_chat s))|];
      cbn [fst submitted chats chat_titles active_chat chat_counter];
      rewrite ?keys_set_present by assumption; repeat split;
      intros k Hk; now rewrite get_set_other.
  - unfold handle_chat_submission. rewrite Hp. cbn. repeat split.
Qed.

Lemma submission_frame_witness :
  keys (chats (fst (handle_chat_submission friendly_backend "Hello" three_chats)))
  = ["Chat 1"; "Chat 2"; "Chat 3"].
Proof.
  assert (H1 : In (active_chat three_chats) (keys (chats three_chats)))
    by (simpl; tauto).
  assert (H2 : In (active_chat three_chats) (keys (chat_titles three_chats)))
    by (simpl; tauto).
  exact (proj1 (submission_frame friendly_backend "Hello" three_chats H1 H2)).
Defined.

End Calls.

(* ===================================================================== *)
(** * More on titles *)
(* ===================================================================== *)

Module TitleFacts.
Import PyStr PyDict DictFacts StrFacts GeminiChatBot View Props MoreProps.
Import ThreadStore Submission Session Titles StoreOps.

(** ** The fallback title is never an identifier *)

Lemma occurs_append c a b : occurs c (a ++ b) = occurs c a || occurs c b.
Proof.
  induction a as [|x r IH]; simpl; [reflexivity|].
  now rewrite IH, orb_assoc.
Qed.

Lemma no_dot_in_uint d : occurs "." (NilEmpty.string_of_uint d) = false.
Proof. induction d; simpl; assumption || reflexivity. Qed.

Lemma no_dot_in_of_int n : occurs "." (of_int n) = false.
Proof.
  unfold of_int. destruct (Z.to_int n) as [d|d]; simpl;
    destruct d; try reflexivity; apply (no_dot_in_uint (_ d)).
Qed.

Lemma no_dot_in_chat_name n : occurs "." (chat_name n) = false.
Proof.
  unfold chat_name. rewrite occurs_append, no_dot_in_of_int. reflexivity.
Qed.

Lemma fallback_title_not_a_name original_prompt n :
  fallback_title original_prompt <> chat_name n.
Proof.
  unfold fallback_title. destruct (PyStr.truthy original_prompt).
  - intros H. pose proof (no_dot_in_chat_name n) as Hn. rewrite <- H in Hn.
    rewrite occurs_append in Hn. cbn [occurs] in Hn.
    rewrite Ascii.eqb_refl in Hn. cbn [orb] in Hn.
    now rewrite orb_true_r in Hn.
  - unfold chat_name. cbn [append]. discriminate.
Qed.

Lemma run_cons be ev rest s :
  fst (run ((be, ev) :: rest) s) = fst (run rest (fst (script_run be ev s))).
Proof.
  simpl. destruct (script_run be ev s) as [s1 tr1]. cbn [fst].
  now destruct (run rest s1).
Qed.

(** X15. The title a failed title generation falls back on is never a chat
    identifier; so when the title model fails on the first successful
    exchange of a chat with its default title, the fallback title is
    stored, it stays for as long as the chat is not deleted, and title
    generation is not tried again for that chat: that exchange is the only
    one that asks for a title. *)
Theorem fallback_title_sticks :
  (forall original_prompt n, fallback_title original_prompt <> chat_name n)
  /\ (forall be prompt_text reply_text e passes s,
        reachable s ->
        prompt_text <> EmptyString ->
        generate_content be
          (api_history_of
             (get_active_chat_history s ++ [Message user prompt_text]))
          = Returns reply_text ->
        has_default_title s = true ->
        title_generate_content be (title_request reply_text prompt_text)
          = Raises e ->
        Forall (fun p : pass => snd p <> DeleteButton (active_chat s)) passes ->
        retitles_of (active_chat s) ((be, ChatInput prompt_text) :: passes) s = 1
        /\ get (chat_titles
                  (fst (run ((be, ChatInput prompt_text) :: passes) s)))
               (active_chat s)
           = Some (fallback_title prompt_text)).
Proof.
  split; [exact fallback_title_not_a_name|].
  intros be prompt_text reply_text e passes s Hr Hp Hgen Hdef Hfail Hall.
  pose proof (reachable_well_formed s Hr) as Hwf.
  assert (Htitle : fst (generate_title_from_summary be reply_text prompt_text)
                   = fallback_title prompt_text).
  { unfold generate_title_from_summary. now rewrite Hfail. }
  assert (Hne : fallback_title prompt_text <> active_chat s).
  { destruct (ok_names s (proj1 Hwf) _ (ok_active s (proj1 Hwf)))
      as (n & _ & ->).
    apply fallback_title_not_a_name. }
  split.
  - apply (retitle_exactly_once be prompt_text reply_text); try assumption.
    now rewrite Htitle.
  - rewrite run_cons.
    pose proof (script_run_ok be (ChatInput prompt_text) s Hwf) as Hwf1.
    rewrite script_run_chat_input in * by assumption.
    destruct (retitle_on_success be prompt_text reply_text
                (with_user_input s prompt_text) Hp Hgen) as [_ Htitles].
    change (has_default_title (with_user_input s prompt_text))
      with (has_default_title s) in Htitles.
    rewrite Hdef, Htitle in Htitles.
    cbn [active_chat chat_titles with_user_input] in Htitles.
    apply (retitle_never_again passes (active_chat s)
             (fallback_title prompt_text) Hne Hall _ Hwf1).
    rewrite Htitles. apply get_set_same.
Qed.

Lemma fallback_title_sticks_witness :
  retitles_of "Chat 1"
    [(untitled_backend, ChatInput "How do I bake sourdough bread at home");
     (untitled_backend, ChatInput "And rye?");
     (friendly_backend, ChatInput "Thanks")]
    init_state = 1
  /\ get (chat_titles
            (fst (run [(untitled_backend,
                        ChatInput "How do I bake sourdough bread at home");
                       (untitled_backend, ChatInput "And rye?");
                       (friendly_backend, ChatInput "Thanks")]
                      init_state)))
         "Chat 1"
     = Some "How do I bake sourdough...".
Proof.
  assert (Hr : reachable init_state) by (exists []; reflexivity).
  assert (Hp : "How do I bake sourdough bread at home" <> EmptyString)
    by discriminate.
  refine (proj2 fallback_title_sticks untitled_backend
            "How do I bake sourdough bread at home" "Hi there" "unavailable"
            _ init_state Hr Hp eq_refl eq_refl eq_refl _).
  repeat constructor; discriminate.
Defined.

(** ** The shape of a sanitised title *)

Lemma lstrip_idem s : lstrip (lstrip s) = lstrip s.
Proof.
  induction s as [|c r IH]; [reflexivity|]. cbn [lstrip].
  destruct (is_space c) eqn:Hc; [assumption|]. cbn [lstrip]. now rewrite Hc.
Qed.

Lemma lstrip_slice_to n s : lstrip s = s -> lstrip (slice_to n s) = slice_to n s.
Proof.
  intros H. destruct s as [|c r]; [now destruct n|].
  apply lstrip_fixed_head in H. destruct n as [|n]; [reflexivity|].
  cbn [slice_to lstrip]. now rewrite H.
Qed.

Lemma rstrip_idem s : rstrip (rstrip s) = rstrip s.
Proof.
  induction s as [|c r IH]; [reflexivity|]. cbn [rstrip].
  destruct (rstrip r) as [|a r'] eqn:Hr.
  - destruct (is_space c) eqn:Hc; [reflexivity|]. cbn [rstrip]. now rewrite Hc.
  - cbn [rstrip] in *. now rewrite IH.
Qed.

Lemma rstrip_fixed_tail c r : rstrip (String c r) = String c r -> rstrip r = r.
Proof.
  cbn [rstrip]. destruct (rstrip r) as [|a r'].
  - destruct (is_space c); [discriminate|]. now intros [= <-].
  - now intros [= <-].
Qed.

Lemma rstrip_lstrip_fixed s : rstrip s = s -> rstrip (lstrip s) = lstrip s.
Proof.
  induction s as [|c r IH]; [reflexivity|]. intros H. cbn [lstrip].
  destruct (is_space c); [|exact H].
  apply IH. now apply rstrip_fixed_tail in H.
Qed.

Lemma strip_no_space_around s :
  lstrip (strip s) = strip s /\ rstrip (strip s) = strip s.
Proof.
  unfold strip. split; [apply lstrip_idem|].
  apply rstrip_lstrip_fixed, rstrip_idem.
Qed.

Lemma slice_to_short n s : String.length (slice_to n s) < n -> slice_to n s = s.
Proof.
  revert s. induction n as [|n IH]; intros s H; [inversion H|].
  destruct s as [|c r]; [reflexivity|]. cbn [slice_to String.length] in *.
  f_equal. apply IH. lia.
Qed.

Lemma slice_to_all n s : String.length s <= n -> slice_to n s = s.
Proof.
  revert s. induction n as [|n IH]; intros [|c r] H; try reflexivity.
  - inversion H.
  - cbn [slice_to String.length] in *. f_equal. apply IH. lia.
Qed.

Lemma sanitize_title_strip_fixed text :
  lstrip (sanitize_title text) = sanitize_title text
  /\ (String.length (sanitize_title text) < 50 ->
      strip (sanitize_title text) = sanitize_title text).
Proof.
  unfold sanitize_title. cbv zeta.
  set (y := replace DQUOTE EmptyString (replace "*" EmptyString _)).
  destruct (strip_no_space_around y) as [Hl Hr].
  split; [now apply lstrip_slice_to|].
  intros Hlen. apply slice_to_short in Hlen. rewrite Hlen.
  unfold strip at 1. now rewrite Hr, Hl.
Qed.

(** X16. A sanitised title never starts with whitespace, and it does not
    end with whitespace either unless the cut at 50 characters shortened
    it: a title of fewer than 50 characters has no whitespace around. *)
Theorem sanitize_title_trimmed text :
  lstrip (sanitize_title text) = sanitize_title text
  /\ (forall c r, sanitize_title text = String c r -> is_space c = false)
  /\ (String.length (sanitize_title text) < 50 ->
      strip (sanitize_title text) = sanitize_title text).
Proof.
  destruct (sanitize_title_strip_fixed text) as [H1 H2].
  split; [exact H1|]. split; [|exact H2].
  intros c r Heq. rewrite Heq in H1. now apply lstrip_fixed_head in H1.
Qed.

Lemma sanitize_title_trimmed_witness :
  String.length (sanitize_title weekend_text) < 50
  /\ strip (sanitize_title weekend_text) = sanitize_title weekend_text.
Proof.
  assert (H : String.length (sanitize_title weekend_text) < 50)
    by (vm_compute; repeat constructor).
  split; [exact H|].
  exact (proj2 (proj2 (sanitize_title_trimmed weekend_text)) H).
Defined.

Lemma replace_absent a s :
  occurs a s = false -> replace a EmptyString s = s.
Proof.
  induction s as [|c r IH]; [reflexivity|]. cbn [occurs replace].
  intros H. apply orb_false_iff in H as [H1 H2].
  rewrite H1. now rewrite IH.
Qed.

Lemma first_line_absent s : occurs LF s = false -> first_line s = s.
Proof.
  induction s as [|c r IH]; [reflexivity|]. cbn [occurs].
  intros H. apply orb_false_iff in H as [H1 H2].
  rewrite first_line_cons, H1. now rewrite IH.
Qed.

(** X17. A title that is already clean goes through the sanitisation
    unchanged: a text of at most 50 characters, without asterisk, double
    quote or line feed and without whitespace around, is its own sanitised
    title. In particular, sanitising a title of fewer than 50 characters
    a second time gives the same title. *)
Theorem sanitize_title_clean :
  (forall text,
     String.length text <= 50 ->
     occurs "*" text = false ->
     occurs DQUOTE text = false ->
     occurs LF text = false ->
     strip text = text ->
     sanitize_title text = text)
  /\ (forall text,
        String.length (sanitize_title text) < 50 ->
        sanitize_title (sanitize_title text) = sanitize_title text).
Proof.
  assert (Hclean : forall text,
             String.length text <= 50 ->
             occurs "*" text = false ->
             occurs DQUOTE text = false ->
             occurs LF text = false ->
             strip text = text ->
             sanitize_title text = text).
  { intros text Hlen Hstar Hq Hlf Hstrip. unfold sanitize_title. cbv zeta.
    rewrite Hstrip. fold (first_line text).
    rewrite (first_line_absent text Hlf), (replace_absent _ text Hstar),
      (replace_absent _ text Hq), Hstrip.
    now apply slice_to_all. }
  split; [exact Hclean|].
  intros text Hlen. apply Hclean.
  - lia.
  - rewrite sanitize_title_eq. apply occurs_sanitize_spec. auto.
  - rewrite sanitize_title_eq. apply occurs_sanitize_spec. auto.
  - rewrite sanitize_title_eq. apply occurs_sanitize_spec. left.
    apply occurs_first_line.
  - now apply sanitize_title_strip_fixed.
Qed.

Lemma sanitize_title_clean_witness :
  sanitize_title "Weekend Trip Plans" = "Weekend Trip Plans".
Proof.
  assert (Hlen : String.length "Weekend Trip Plans" <= 50)
    by (vm_compute; repeat constructor).
  exact (proj1 sanitize_title_clean "Weekend Trip Plans" Hlen
           eq_refl eq_refl eq_refl eq_refl).
Defined.

End TitleFacts.

(* ===================================================================== *)
(** * The sidebar *)
(* ===================================================================== *)

Module Sidebar.
Import PyDict DictFacts GeminiChatBot View Props MoreProps.
Import ThreadStore Submission Session StoreOps.

Lemma insert_desc_perm k ks : Permutation (insert_desc k ks) (k :: ks).
Proof.
  induction ks as [|k' r IH]; simpl; [reflexivity|].
  destruct (PyStr.gtb k' k); [|reflexivity].
  rewrite IH. apply perm_swap.
Qed.

(** Sorting keeps every identifier, as many times as it was there. *)
Lemma sorted_reverse_perm ks : Permutation (sorted_reverse ks) ks.
Proof.
  unfold sorted_reverse. induction ks as [|k r IH]; simpl; [reflexivity|].
  rewrite insert_desc_perm. now constructor.
Qed.

Lemma rows_chats s : map row_chat (sidebar_rows s) = sorted_reverse (keys (chats s)).
Proof.
  unfold sidebar_rows. cbv zeta. rewrite map_map. cbn [row_chat].
  apply map_id.
Qed.

(** In a list without duplicates one element only is [a]. *)
Lemma filter_eqb_nodup a (l : list string) :
  NoDup l -> In a l -> filter (String.eqb a) l = [a].
Proof.
  induction 1 as [|x r Hnotin Hnd IH]; intros Hin; [destruct Hin|].
  simpl. destruct (String.eqb_spec a x) as [<-|Hne].
  - f_equal. clear IH Hin Hnd. induction r as [|y r IH]; [reflexivity|].
    simpl. destruct (String.eqb_spec a y) as [<-|_].
    + exfalso. apply Hnotin. now left.
    + apply IH. intros H. apply Hnotin. now right.
  - destruct Hin as [Heq|Hin]; [congruence | now apply IH].
Qed.

Lemma primary_rows_chats s :
  map row_chat (primary_rows (sidebar_rows s))
  = filter (String.eqb (active_chat s)) (sorted_reverse (keys (chats s))).
Proof.
  unfold sidebar_rows, primary_rows. cbv zeta.
  induction (sorted_reverse (keys (chats s))) as [|k r IH]; [reflexivity|].
  cbn [map filter row_type].
  destruct (String.eqb (active_chat s) k); cbn [negb map row_chat];
    now rewrite IH.
Qed.

(** X18. The sidebar of a reachable session state has one row per chat of
    the store, each chat once; the label of a row is the title stored for
    its chat; and exactly one select button is drawn as primary, that of
    the active chat. *)
Theorem sidebar_lists_chats s :
  reachable s ->
  Permutation (map row_chat (sidebar_rows s)) (keys (chats s))
  /\ NoDup (map row_chat (sidebar_rows s))
  /\ (forall r, In r (sidebar_rows s) ->
        get (chat_titles s) (row_chat r) = Some (row_label r))
  /\ map row_chat (primary_rows (sidebar_rows s)) = [active_chat s].
Proof.
  intros Hr. apply reachable_well_formed in Hr as [Hok _].
  pose proof (sorted_reverse_perm (keys (chats s))) as Hperm.
  assert (Hnd : NoDup (sorted_reverse (keys (chats s)))).
  { apply (Permutation_NoDup (Permutation_sym Hperm)), (ok_nodup s Hok). }
  rewrite rows_chats. split; [exact Hperm|]. split; [exact Hnd|]. split.
  - intros r Hin. unfold sidebar_rows in Hin. cbv zeta in Hin.
    apply in_map_iff in Hin as (k & <- & Hk). cbn [row_chat row_label].
    apply (proj1 (in_sorted_reverse _ _)) in Hk.
    rewrite (ok_same_keys s Hok) in Hk.
    unfold get_default.
    destruct (get (chat_titles s) k) eqn:Hg; [reflexivity|].
    apply get_none_not_in in Hg. contradiction.
  - rewrite primary_rows_chats. apply filter_eqb_nodup; [exact Hnd|].
    apply (proj2 (in_sorted_reverse _ _)), (ok_active s Hok).
Qed.

Lemma sidebar_lists_chats_witness :
  reachable (final two_then_one)
  /\ map row_chat (primary_rows (sidebar_rows (final two_then_one))) = ["Chat 2"].
Proof.
  assert (Hr : reachable (final two_then_one)) by (exists two_then_one; reflexivity).
  split; [exact Hr|].
  destruct (sidebar_lists_chats (final two_then_one) Hr) as (_ & _ & _ & H).
  exact H.
Defined.

End Sidebar.
